(** * imgly-sdk-html5: rotation operation, crop knob clamping and the
      [ImglyKit] entry points

    A shallow embedding of
    - [src/js/operations/rotation-operation.js] (class [RotationOperation]),
    - the knob-drag clamping of [src/js/ui/night/controls/crop.js],
    - the constructor and [render] of [ImglyKit].

    JavaScript objects that are passed by reference ([Vector2] instances,
    canvas elements, WebGL textures) live in stores indexed by references;
    methods are computations in a state-and-exception monad over such a
    store.  Calls that reach the outside (the 2D context, the GL context,
    the renderer) are recorded, in program order, in a log. *)

From Stdlib Require Import ZArith QArith Qminmax Reals String List Lia Lqa.
From stdpp Require Import base list strings.

Set Implicit Arguments.
Set Default Proof Using "Type".

Local Open Scope string_scope.
Local Open Scope list_scope.
Local Open Scope Z_scope.

(** ** JavaScript control flow: state and exceptions *)

(** What a [throw] carries: [new Error(message)], or the engine's own
    [TypeError] (property access on [null] / [undefined]). *)
Inductive exn : Type :=
| Error (message : string)
| TypeError (message : string).

Definition message_of (e : exn) : string :=
  match e with Error m | TypeError m => m end.

(** A computation either returns or throws; the state reached is kept in
    both cases (a JavaScript exception does not roll anything back). *)
Definition M (S A : Type) : Type := S -> (exn + A) * S.

Definition ret {S A} (a : A) : M S A := fun s => (inr a, s).

Definition throw {S A} (e : exn) : M S A := fun s => (inl e, s).

Definition bind {S A B} (m : M S A) (k : A -> M S B) : M S B :=
  fun s =>
    match m s with
    | (inr a, s') => k a s'
    | (inl e, s') => (inl e, s')
    end.

Definition gets {S A} (f : S -> A) : M S A := fun s => (inr (f s), s).

Definition modify {S} (f : S -> S) : M S unit := fun s => (inr tt, f s).

Declare Scope js_scope.
Delimit Scope js_scope with js.
Notation "x <- m ;; k" := (bind m (fun x => k))
  (at level 100, m at next level, right associativity) : js_scope.
Notation "m ;; k" := (bind m (fun _ => k))
  (at level 100, right associativity) : js_scope.

(** [for (...) body] over the elements of an array. *)
Fixpoint for_each {S A} (body : A -> M S unit) (l : list A) : M S unit :=
  match l with
  | [] => ret tt
  | a :: l' => (body a ;; for_each body l')%js
  end.

(** JavaScript's [%] on integral numbers: the sign follows the dividend. *)
Definition js_rem (a b : Z) : Z := Z.rem a b.

(** [haystack.indexOf(needle) !== -1] *)
Fixpoint contains (needle haystack : string) : bool :=
  String.prefix needle haystack ||
  match haystack with
  | EmptyString => false
  | String _ rest => contains needle rest
  end.

(** ** lib/math/vector2: the fields *)

Module Vector2.
Record t (A : Type) : Type := new { x : A; y : A }.
Arguments new {A} x y.
Arguments x {A} _.
Arguments y {A} _.
End Vector2.
Abbreviation Vector2 := Vector2.t.

(** ** The objects the rotation operation works on *)

(** References into the stores. *)
Abbreviation ref := nat.

(** A canvas element: its [width] and [height] attributes. *)
Record Canvas : Type := { width : Z; height : Z }.

(** A texture object: the size of the image last specified for it with
    [texImage2D]. *)
Record Texture : Type := { tex_width : Z; tex_height : Z }.

(** Calls on a [CanvasRenderingContext2D]. *)
Inductive ContextCall : Type :=
| save
| restore
| translate (tx ty : R)
| rotate (angle : R)
| drawImage (image : ref) (dx dy : R).

(** What reaches the environment, in program order. *)
Inductive Event : Type :=
| EvCreateCanvas (c : ref)
| EvSetWidth (c : ref) (value : Z)
| EvSetHeight (c : ref) (value : Z)
| EvContext (c : ref) (call : ContextCall)
| EvCloneCanvas (source copy : ref)
| EvSetCanvas (c : ref)
| EvBindTexture (t : ref)
| EvTexImage2D (t : ref) (w h : Z)
| EvRunShader (input output : ref) (u_matrix : list R).

(** [this._options] of a [RotationOperation]. *)
Record Options : Type := { degrees : Z }.

(** The receiver [this], the renderer handed to its methods (both the
    [CanvasRenderer] and the [WebGLRenderer] side), and the object stores. *)
Record World : Type := {
  this_options : Options;            (* this._options *)
  vectors : list (Vector2 Z);        (* Vector2 instances *)
  canvases : list Canvas;            (* canvas elements *)
  renderer_canvas : ref;             (* renderer.getCanvas() *)
  texture_store : list Texture;      (* texture objects *)
  renderer_textures : list ref;      (* renderer.getTextures() *)
  renderer_lastTexture : ref;        (* renderer.getLastTexture() *)
  renderer_currentTexture : ref;     (* renderer.getCurrentTexture() *)
  gl_TEXTURE_2D : option ref;        (* texture bound to gl.TEXTURE_2D *)
  log : list Event
}.

Definition with_vectors (f : list (Vector2 Z) -> list (Vector2 Z)) (w : World) : World :=
  {| this_options := this_options w; vectors := f (vectors w);
     canvases := canvases w; renderer_canvas := renderer_canvas w;
     texture_store := texture_store w; renderer_textures := renderer_textures w;
     renderer_lastTexture := renderer_lastTexture w;
     renderer_currentTexture := renderer_currentTexture w;
     gl_TEXTURE_2D := gl_TEXTURE_2D w; log := log w |}.

Definition with_canvases (f : list Canvas -> list Canvas) (w : World) : World :=
  {| this_options := this_options w; vectors := vectors w;
     canvases := f (canvases w); renderer_canvas := renderer_canvas w;
     texture_store := texture_store w; renderer_textures := renderer_textures w;
     renderer_lastTexture := renderer_lastTexture w;
     renderer_currentTexture := renderer_currentTexture w;
     gl_TEXTURE_2D := gl_TEXTURE_2D w; log := log w |}.

Definition with_renderer_canvas (c : ref) (w : World) : World :=
  {| this_options := this_options w; vectors := vectors w;
     canvases := canvases w; renderer_canvas := c;
     texture_store := texture_store w; renderer_textures := renderer_textures w;
     renderer_lastTexture := renderer_lastTexture w;
     renderer_currentTexture := renderer_currentTexture w;
     gl_TEXTURE_2D := gl_TEXTURE_2D w; log := log w |}.

Definition with_texture_store (f : list Texture -> list Texture) (w : World) : World :=
  {| this_options := this_options w; vectors := vectors w;
     canvases := canvases w; renderer_canvas := renderer_canvas w;
     texture_store := f (texture_store w); renderer_textures := renderer_textures w;
     renderer_lastTexture := renderer_lastTexture w;
     renderer_currentTexture := renderer_currentTexture w;
     gl_TEXTURE_2D := gl_TEXTURE_2D w; log := log w |}.

Definition with_gl_TEXTURE_2D (b : option ref) (w : World) : World :=
  {| this_options := this_options w; vectors := vectors w;
     canvases := canvases w; renderer_canvas := renderer_canvas w;
     texture_store := texture_store w; renderer_textures := renderer_textures w;
     renderer_lastTexture := renderer_lastTexture w;
     renderer_currentTexture := renderer_currentTexture w;
     gl_TEXTURE_2D := b; log := log w |}.

Definition with_log (f : list Event -> list Event) (w : World) : World :=
  {| this_options := this_options w; vectors := vectors w;
     canvases := canvases w; renderer_canvas := renderer_canvas w;
     texture_store := texture_store w; renderer_textures := renderer_textures w;
     renderer_lastTexture := renderer_lastTexture w;
     renderer_currentTexture := renderer_currentTexture w;
     gl_TEXTURE_2D := gl_TEXTURE_2D w; log := f (log w) |}.

Local Open Scope js_scope.

(** Appends one event to the log. *)
Definition emit (e : Event) : M World unit :=
  modify (with_log (fun l => l ++ [e])).

(** Property access through a reference.  A JavaScript reference always
    points to a live object; a reference outside the store has no
    counterpart in the source and is reported as a [TypeError]. *)
Definition deref {A} (store : World -> list A) (r : ref) : M World A :=
  o <- gets (fun w => store w !! r) ;;
  match o with
  | Some a => ret a
  | None => throw (TypeError "Cannot read property of undefined")
  end.

(** *** Vector2 instances *)

(** [new Vector2(x, y)] *)
Definition new_Vector2 (vx vy : Z) : M World ref :=
  r <- gets (fun w => length (vectors w)) ;;
  modify (with_vectors (fun h => h ++ [Vector2.new vx vy])) ;;
  ret r.

Definition get_x (v : ref) : M World Z :=
  o <- deref vectors v ;; ret (Vector2.x o).

Definition get_y (v : ref) : M World Z :=
  o <- deref vectors v ;; ret (Vector2.y o).

(** [v.x = value] *)
Definition set_x (v : ref) (value : Z) : M World unit :=
  o <- deref vectors v ;;
  modify (with_vectors (fun h => <[v := Vector2.new value (Vector2.y o)]> h)).

(** [v.y = value] *)
Definition set_y (v : ref) (value : Z) : M World unit :=
  o <- deref vectors v ;;
  modify (with_vectors (fun h => <[v := Vector2.new (Vector2.x o) value]> h)).

(** *** Canvas elements *)

Definition get_width (c : ref) : M World Z :=
  o <- deref canvases c ;; ret (width o).

Definition get_height (c : ref) : M World Z :=
  o <- deref canvases c ;; ret (height o).

(** [c.width = value] *)
Definition set_width (c : ref) (value : Z) : M World unit :=
  o <- deref canvases c ;;
  modify (with_canvases (fun h => <[c := {| width := value; height := height o |}]> h)) ;;
  emit (EvSetWidth c value).

(** [c.height = value] *)
Definition set_height (c : ref) (value : Z) : M World unit :=
  o <- deref canvases c ;;
  modify (with_canvases (fun h => <[c := {| width := width o; height := value |}]> h)) ;;
  emit (EvSetHeight c value).

(** A call on the 2D context of canvas [c]. *)
Definition context2d (c : ref) (call : ContextCall) : M World unit :=
  emit (EvContext c call).

(** ** operations/rotation-operation.js *)

(** [availableOptions.degrees.validation] *)
Definition degrees_validation (value : Z) : exn + unit :=
  if negb (js_rem value 90 =? 0)
  then inl (Error "RotationOperation: `rotation` has to be a multiple of 90.")
  else inr tt.

(** [availableOptions.degrees.default] *)
Definition degrees_default : Z := 0.

(** Modelled from the spec: the constructor of the base class [Operation]
    ([operations/operation.js] is not among the sources), reached through
    [super(...args)].  "For every declared option, if absent, the default is
    substituted; if present, the declared validator (if any) is invoked and
    a validation failure aborts construction."  The argument is the
    [degrees] entry of the raw options object, [None] when it is absent. *)
Definition RotationOperation_new (raw_degrees : option Z) : exn + Options :=
  match raw_degrees with
  | None => inr {| degrees := degrees_default |}
  | Some value =>
      match degrees_validation value with
      | inl e => inl e
      | inr _ => inr {| degrees := value |}
      end
  end.

(** A synchronous [throw] or value, seen from a surrounding computation. *)
Definition lift {S A} (r : exn + A) : M S A :=
  match r with inl e => throw e | inr a => ret a end.

(** [get identifier ()] *)
Definition identifier : string := "rotation".

(** [getNewDimensions (renderer, dimensions)]; [dimensions] is [None] when
    the caller passes none. *)
Definition getNewDimensions (dimensions : option ref) : M World ref :=
  canvas <- gets renderer_canvas ;;
  dimensions <-
    match dimensions with
    | Some d => ret d
    | None =>
        cw <- get_width canvas ;;
        ch <- get_height canvas ;;
        new_Vector2 cw ch
    end ;;
  degrees <- gets (fun w => degrees (this_options w)) ;;
  let actualDegrees := js_rem degrees 360 in
  (if negb (js_rem actualDegrees 180 =? 0) then
     tempX <- get_x dimensions ;;
     dy <- get_y dimensions ;;
     set_x dimensions dy ;;
     set_y dimensions tempX
   else ret tt) ;;
  ret dimensions.

(** [gl.bindTexture(gl.TEXTURE_2D, t)] *)
Definition bindTexture (t : ref) : M World unit :=
  modify (with_gl_TEXTURE_2D (Some t)) ;;
  emit (EvBindTexture t).

(** [gl.texImage2D(gl.TEXTURE_2D, 0, gl.RGBA, w, h, 0, gl.RGBA,
    gl.UNSIGNED_BYTE, null)]: specifies an empty [w] by [h] image for the
    texture that is bound; without a bound texture GL records an error and
    specifies nothing. *)
Definition texImage2D (w h : Z) : M World unit :=
  bound <- gets gl_TEXTURE_2D ;;
  match bound with
  | Some t =>
      modify (with_texture_store
                (fun s => <[t := {| tex_width := w; tex_height := h |}]> s)) ;;
      emit (EvTexImage2D t w h)
  | None => ret tt
  end.

(** Modelled from the spec: [renderer.runShader] (the WebGL renderer is not
    among the sources) "redraws via a shader": one draw that samples the
    renderer's last texture, "the surface being read from", into its
    current texture, and resizes nothing. *)
Definition runShader (u_matrix : list R) : M World unit :=
  input <- gets renderer_lastTexture ;;
  output <- gets renderer_currentTexture ;;
  emit (EvRunShader input output u_matrix).

(** [actualDegrees * (Math.PI / 180)] *)
Definition radians_of (actualDegrees : Z) : R :=
  (IZR actualDegrees * (PI / 180))%R.

(** The [rotationMatrix] array literal. *)
Definition rotationMatrix (radians : R) : list R :=
  let c := cos radians in
  let s := sin radians in
  [ c; (- s)%R; 0%R;
    s; c; 0%R;
    0%R; 0%R; 1%R ].

(** [_renderWebGL (renderer)] *)
Definition _renderWebGL : M World unit :=
  canvas <- gets renderer_canvas ;;
  degrees <- gets (fun w => degrees (this_options w)) ;;
  let actualDegrees := js_rem degrees 360 in
  lastTexture <- gets renderer_lastTexture ;;
  (if negb (js_rem actualDegrees 180 =? 0) then
     newDimensions <- getNewDimensions None ;;
     nx <- get_x newDimensions ;;
     set_width canvas nx ;;
     ny <- get_y newDimensions ;;
     set_height canvas ny ;;
     currentTexture <- gets renderer_currentTexture ;;
     bindTexture currentTexture ;;
     cw <- get_width canvas ;;
     ch <- get_height canvas ;;
     texImage2D cw ch ;;
     textures <- gets renderer_textures ;;
     for_each
       (fun texture =>
          if (texture =? lastTexture)%nat then ret tt
          else
            bindTexture texture ;;
            cw <- get_width canvas ;;
            ch <- get_height canvas ;;
            texImage2D cw ch)
       textures
   else ret tt) ;;
  let radians := radians_of actualDegrees in
  runShader (rotationMatrix radians) ;;
  bindTexture lastTexture ;;
  cw <- get_width canvas ;;
  ch <- get_height canvas ;;
  texImage2D cw ch.

(** Modelled from the spec: [renderer.createCanvas] (the canvas renderer
    is not among the sources) hands out a fresh canvas element; a fresh
    element has the HTML default size. *)
Definition createCanvas : M World ref :=
  r <- gets (fun w => length (canvases w)) ;;
  modify (with_canvases (fun h => h ++ [ {| width := 300; height := 150 |} ])) ;;
  emit (EvCreateCanvas r) ;;
  ret r.

(** Modelled from the spec: [renderer.cloneCanvas] hands out a fresh canvas
    element that is a copy of the renderer's canvas ("the prior content"). *)
Definition cloneCanvas : M World ref :=
  source <- gets renderer_canvas ;;
  o <- deref canvases source ;;
  r <- gets (fun w => length (canvases w)) ;;
  modify (with_canvases (fun h => h ++ [o])) ;;
  emit (EvCloneCanvas source r) ;;
  ret r.

(** Modelled from the spec: [renderer.setCanvas] "replaces the active
    surface". *)
Definition setCanvas (c : ref) : M World unit :=
  modify (with_renderer_canvas c) ;;
  emit (EvSetCanvas c).

(** [_renderCanvas (renderer)] *)
Definition _renderCanvas : M World unit :=
  canvas <- gets renderer_canvas ;;
  degrees <- gets (fun w => degrees (this_options w)) ;;
  let actualDegrees := js_rem degrees 360 in
  newDimensions <- getNewDimensions None ;;
  newCanvas <- createCanvas ;;
  nx <- get_x newDimensions ;;
  set_width newCanvas nx ;;
  ny <- get_y newDimensions ;;
  set_height newCanvas ny ;;
  let newContext := newCanvas in
  context2d newContext save ;;
  nw <- get_width newCanvas ;;
  nh <- get_height newCanvas ;;
  context2d newContext (translate (IZR nw / 2) (IZR nh / 2)) ;;
  context2d newContext (rotate (radians_of actualDegrees)) ;;
  tempCanvas <- cloneCanvas ;;
  cw <- get_width canvas ;;
  ch <- get_height canvas ;;
  context2d newContext (drawImage tempCanvas (- IZR cw / 2) (- IZR ch / 2)) ;;
  context2d newContext restore ;;
  setCanvas newCanvas.

(** A world with one canvas, for running examples. *)
Definition world_of (d cw ch : Z) : World :=
  {| this_options := {| degrees := d |};
     vectors := [];
     canvases := [ {| width := cw; height := ch |} ];
     renderer_canvas := 0%nat;
     texture_store := [ {| tex_width := cw; tex_height := ch |};
                        {| tex_width := cw; tex_height := ch |};
                        {| tex_width := cw; tex_height := ch |} ];
     renderer_textures := [0%nat; 1%nat];
     renderer_lastTexture := 2%nat;
     renderer_currentTexture := 0%nat;
     gl_TEXTURE_2D := None;
     log := [] |}.

(** ** lib/math/vector2: arithmetic and clamp *)

(** [lib/math/vector2.js] is not among the sources; only its callers are.
    Its methods are modelled from the specification ("2D vector with
    clamp/arithmetic").  Each method updates its receiver and returns it;
    the functions below give the receiver's new value.  Components are
    rationals; a bound that is [null] (or left out) is [None]. *)
Module Vector2Methods.
Import Vector2.

(** Modelled from the spec: [clone] is missing from the sources; it is "a
    value copy". *)
Definition clone (v : Vector2 Q) : Vector2 Q := new (x v) (y v).

(** Modelled from the spec: [add] is missing from the sources; the
    arithmetic is "component-wise". *)
Definition add (v o : Vector2 Q) : Vector2 Q :=
  new (x v + x o)%Q (y v + y o)%Q.

(** Modelled from the spec: [subtract] is missing from the sources; the
    arithmetic is "component-wise". *)
Definition subtract (v o : Vector2 Q) : Vector2 Q :=
  new (x v - x o)%Q (y v - y o)%Q.

(** Modelled from the spec: [multiply] is missing from the sources; the
    arithmetic is "component-wise". *)
Definition multiply (v o : Vector2 Q) : Vector2 Q :=
  new (x v * x o)%Q (y v * y o)%Q.


(** Modelled from the spec: one axis of [clamp], which is missing from the
    sources.  A [null] bound is "no constraint on that side"; with
    [min.x > max.x] the result is [x = min.x], so the upper bound is
    applied first and the lower bound after it. *)
Definition clamp_axis (minimum maximum : option Q) (value : Q) : Q :=
  let value :=
    match maximum with
    | Some hi => Qmin hi value
    | None => value
    end in
  match minimum with
  | Some lo => Qmax lo value
  | None => value
  end.

(** Modelled from the spec: [clamp] is missing from the sources; it
    "clamps independently per axis". *)
Definition clamp (minimum maximum : option (Vector2 Q)) (v : Vector2 Q)
  : Vector2 Q :=
  new (clamp_axis (option_map x minimum) (option_map x maximum) (x v))
      (clamp_axis (option_map y minimum) (option_map y maximum) (y v)).
End Vector2Methods.

(** ** ui/night/controls/crop.js: the corner switch of [_onKnobDrag] *)

Module CropControls.
Import Vector2 Vector2Methods.

(** The locals of [_onKnobDrag] that the corner switch leaves behind. *)
Record Dragged : Type := {
  absoluteStart : Vector2 Q;
  absoluteEnd : Vector2 Q;
  maxHeight : Q
}.

(** [_onKnobDrag], from [let absoluteStart = ...] to the end of the first
    [switch (corner)].  [corner] is [this._currentKnob.dataset.corner],
    [mouseDiff] the mouse movement since the knob was pressed; the other
    arguments are [this._ui.canvas.size], [this._startBeforeDrag],
    [this._endBeforeDrag] and [this._minimumSize]. *)
Definition _onKnobDrag_corner
    (corner : string)
    (mouseDiff canvasSize _startBeforeDrag _endBeforeDrag _minimumSize : Vector2 Q)
  : Dragged :=
  let absoluteStart := multiply (clone _startBeforeDrag) canvasSize in
  let absoluteEnd := multiply (clone _endBeforeDrag) canvasSize in
  let maxHeight := y canvasSize in
  if String.eqb corner "top-left" then
    let absoluteStart := add absoluteStart mouseDiff in
    let maximum := subtract (clone absoluteEnd) _minimumSize in
    let absoluteStart := clamp None (Some maximum) absoluteStart in
    {| absoluteStart := absoluteStart; absoluteEnd := absoluteEnd;
       maxHeight := maxHeight |}
  else if String.eqb corner "top-right" then
    let absoluteEnd := new (x absoluteEnd + x mouseDiff)%Q (y absoluteEnd) in
    let absoluteStart := new (x absoluteStart) (y absoluteStart + y mouseDiff)%Q in
    let absoluteEnd :=
      new (Qmax (x absoluteStart + x _minimumSize)%Q (x absoluteEnd))
          (y absoluteEnd) in
    let absoluteStart :=
      new (x absoluteStart)
          (Qmin (y absoluteEnd - y _minimumSize)%Q (y absoluteStart)) in
    {| absoluteStart := absoluteStart; absoluteEnd := absoluteEnd;
       maxHeight := maxHeight |}
  else if String.eqb corner "bottom-right" then
    let absoluteEnd := add absoluteEnd mouseDiff in
    let minimum := add (clone absoluteStart) _minimumSize in
    let absoluteEnd := clamp (Some minimum) None absoluteEnd in
    let maxHeight := (y canvasSize - y absoluteStart)%Q in
    {| absoluteStart := absoluteStart; absoluteEnd := absoluteEnd;
       maxHeight := maxHeight |}
  else if String.eqb corner "bottom-left" then
    let absoluteStart := new (x absoluteStart + x mouseDiff)%Q (y absoluteStart) in
    let absoluteEnd := new (x absoluteEnd) (y absoluteEnd + y mouseDiff)%Q in
    let absoluteStart :=
      new (Qmin (x absoluteEnd - x _minimumSize)%Q (x absoluteStart))
          (y absoluteStart) in
    let absoluteEnd :=
      new (x absoluteEnd)
          (Qmax (y absoluteStart + y _minimumSize)%Q (y absoluteEnd)) in
    {| absoluteStart := absoluteStart; absoluteEnd := absoluteEnd;
       maxHeight := maxHeight |}
  else
    {| absoluteStart := absoluteStart; absoluteEnd := absoluteEnd;
       maxHeight := maxHeight |}.
End CropControls.

(** ** The [ImglyKit] class *)

Module ImglyKit.

(** The value of the [ui] option: a boolean or the name of a registered
    UI. *)
Inductive UiOption : Type :=
| ui_bool (b : bool)
| ui_name (name : string).

(** JavaScript truthiness of the [ui] option. *)
Definition truthy (u : UiOption) : bool :=
  match u with
  | ui_bool b => b
  | ui_name name => negb (String.eqb name "")
  end.

(** The [ui] option as a property key and in a message; [None] is
    [undefined]. *)
Definition ui_to_string (u : option UiOption) : string :=
  match u with
  | Some (ui_bool true) => "true"
  | Some (ui_bool false) => "false"
  | Some (ui_name name) => name
  | None => "undefined"
  end.

(** The options object; a field that is [undefined] is [None].  The
    [container] is an element or [null] ([Some None]). *)
Record OptionsObject : Type := {
  image : option nat;
  assetsUrl : option string;
  container : option (option nat);
  ui : option UiOption;
  renderer : option string
}.

(** The constructor's argument. *)
Inductive Argument : Type :=
| undefined
| null
| object (o : OptionsObject).

(** A UI class, known by [prototype.identifier]. *)
Record UI : Type := { ui_identifier : string }.

(** [new UI(kit, { container, assetsUrl })] after [attach()]. *)
Record AttachedUI : Type := {
  ui_class : UI;
  ui_container : option (option nat);
  ui_assetsUrl : option string
}.

(** The fields of an instance; [None] while a field has not been
    assigned. *)
Record Instance : Type := {
  _options : option OptionsObject;
  _registeredUIs : option (list (string * UI));
  operationsStack : option (list string);
  attached_ui : option AttachedUI
}.

(** [this] on entry to the constructor. *)
Definition blank : Instance :=
  {| _options := None; _registeredUIs := None; operationsStack := None;
     attached_ui := None |}.

(** What [render] sets in motion. *)
Inductive RenderEvent : Type :=
| EvNewRenderImage (image : option nat) (stack : option (list string))
    (dimensions : option string) (renderer : option string)
| EvRenderImageRender
| EvExport (renderType imageFormat : string).

Record State : Type := { this : Instance; events : list RenderEvent }.

Definition with_this (f : Instance -> Instance) (s : State) : State :=
  {| this := f (this s); events := events s |}.

Definition emit (e : RenderEvent) : M State unit :=
  modify (fun s => {| this := this s; events := events s ++ [e] |}).

(** Reading a field that must hold an object. *)
Definition field {A} (f : Instance -> option A) : M State A :=
  o <- gets (fun s => f (this s)) ;;
  match o with
  | Some a => ret a
  | None => throw (TypeError "Cannot read property of undefined")
  end.

(** [_.defaults(options, { assetsUrl: "assets", container: null, ui: true })] *)
Definition defaults (o : OptionsObject) : OptionsObject :=
  {| image := image o;
     assetsUrl := match assetsUrl o with Some a => Some a | None => Some "assets" end;
     container := match container o with Some c => Some c | None => Some None end;
     ui := match ui o with Some u => Some u | None => Some (ui_bool true) end;
     renderer := renderer o |}.

(** [object[key] = value] on an object used as a map; insertion order is
    kept. *)
Fixpoint assign {A} (key : string) (value : A) (l : list (string * A))
  : list (string * A) :=
  match l with
  | [] => [(key, value)]
  | (k, v) :: l' =>
      if String.eqb k key then (k, value) :: l'
      else (k, v) :: assign key value l'
  end.

Fixpoint lookup_key {A} (key : string) (l : list (string * A)) : option A :=
  match l with
  | [] => None
  | (k, v) :: l' => if String.eqb k key then Some v else lookup_key key l'
  end.

Section WithCollaborators.

(** [require("./ui/night/ui")] *)
Variable NightUI : UI.

(** [ImageExporter.validateSettings]: the validated settings, or the
    error it throws. *)
Variable validateSettings :
  option string -> option string -> exn + (string * string).

(** [registerUI (ui)] *)
Definition registerUI (u : UI) : M State unit :=
  uis <- field _registeredUIs ;;
  modify (with_this (fun i =>
    {| _options := _options i;
       _registeredUIs := Some (assign (ui_identifier u) u uis);
       operationsStack := operationsStack i;
       attached_ui := attached_ui i |})).

(** [_registerUIs ()] *)
Definition _registerUIs : M State unit := registerUI NightUI.

(** [_initUI ()] *)
Definition _initUI : M State unit :=
  options <- field _options ;;
  uis <- field _registeredUIs ;;
  let UI :=
    match ui options with
    | Some (ui_bool true) => hd_error (map snd uis)
    | u => lookup_key (ui_to_string u) uis
    end in
  match UI with
  | None => throw (Error ("ImglyKit: Unknown UI: " ++ ui_to_string (ui options)))
  | Some cls =>
      modify (with_this (fun i =>
        {| _options := _options i;
           _registeredUIs := _registeredUIs i;
           operationsStack := operationsStack i;
           attached_ui :=
             Some {| ui_class := cls;
                     ui_container := container options;
                     ui_assetsUrl := assetsUrl options |} |}))
  end.

(** [function ImglyKit(options)] *)
Definition ImglyKit (options : Argument) : M State unit :=
  (match options with
   | undefined => throw (Error "No options given.")
   | _ => ret tt
   end) ;;
  o <- match options with
       | object o => ret o
       | _ => throw (TypeError "Cannot read property 'image' of null")
       end ;;
  (match image o with
   | None => throw (Error "`options.image` is undefined.")
   | Some _ => ret tt
   end) ;;
  let options := defaults o in
  modify (with_this (fun i =>
    {| _options := Some options;
       _registeredUIs := _registeredUIs i;
       operationsStack := operationsStack i;
       attached_ui := attached_ui i |})) ;;
  modify (with_this (fun i =>
    {| _options := _options i;
       _registeredUIs := Some [];
       operationsStack := operationsStack i;
       attached_ui := attached_ui i |})) ;;
  modify (with_this (fun i =>
    {| _options := _options i;
       _registeredUIs := _registeredUIs i;
       operationsStack := Some [];
       attached_ui := attached_ui i |})) ;;
  _registerUIs ;;
  options <- field _options ;;
  match ui options with
  | Some u => if truthy u then _initUI else ret tt
  | None => ret tt
  end.

(** [ImglyKit.prototype.render].  The promise it returns is given by
    the callback passed to [then], which the event loop runs once
    [renderImage.render()] has settled. *)
Definition render (renderType imageFormat : option string)
    (dimensions : option string) : M State (M State unit) :=
  settings <- lift (validateSettings renderType imageFormat) ;;
  let renderType := fst settings in
  let imageFormat := snd settings in
  options <- field _options ;;
  stack <- gets (fun s => operationsStack (this s)) ;;
  emit (EvNewRenderImage (image options) stack dimensions (renderer options)) ;;
  emit EvRenderImageRender ;;
  ret (emit (EvExport renderType imageFormat)).

End WithCollaborators.

(** Modelled from the spec: [lib/image-exporter.js] and [constants.js] are
    not among the sources.  The export stage "validates the combination of
    encoding and delivery mode against a fixed allowed set and fails with
    a descriptive error on an unsupported combination"; [allowed] is that
    set, as pairs of a render type and an image format.  An argument left
    out takes the default named in the documentation of [render]. *)
Definition spec_validateSettings (allowed : list (string * string))
    (renderType imageFormat : option string) : exn + (string * string) :=
  let renderType := match renderType with Some r => r | None => "DATA_URL" end in
  let imageFormat := match imageFormat with Some f => f | None => "PNG" end in
  if existsb (fun p => String.eqb (fst p) renderType && String.eqb (snd p) imageFormat)
       allowed
  then inr (renderType, imageFormat)
  else inl (Error ("Unsupported combination: " ++ renderType ++ ", " ++ imageFormat)).

End ImglyKit.

(** ** Vocabulary for the statements *)

(** The vector [getNewDimensions] starts from: the one passed in, or the
    size of the renderer's canvas. *)
Definition input_dimensions (dimensions : option ref) (w : World)
  : option (Vector2 Z) :=
  match dimensions with
  | Some d => vectors w !! d
  | None =>
      match canvases w !! renderer_canvas w with
      | Some c => Some (Vector2.new (width c) (height c))
      | None => None
      end
  end.

(** Width and height exchanged. *)
Definition swapped {A} (v : Vector2 A) : Vector2 A :=
  Vector2.new (Vector2.y v) (Vector2.x v).

(** The branch both [getNewDimensions] and [_renderWebGL] test. *)
Definition swaps (d : Z) : bool := negb (js_rem (js_rem d 360) 180 =? 0).

Definition rotated (d : Z) (v : Vector2 Z) : Vector2 Z :=
  if swaps d then swapped v else v.

(** The size of a canvas as a vector. *)
Definition size_of (c : Canvas) : Vector2 Z := Vector2.new (width c) (height c).

Definition canvas_of (v : Vector2 Z) : Canvas :=
  {| width := Vector2.x v; height := Vector2.y v |}.

Definition texture_of (v : Vector2 Z) : Texture :=
  {| tex_width := Vector2.x v; tex_height := Vector2.y v |}.

(** The events of binding a texture and specifying an image of size [v]. *)
Definition resize_events (v : Vector2 Z) (t : ref) : list Event :=
  [ EvBindTexture t; EvTexImage2D t (Vector2.x v) (Vector2.y v) ].

(** The textures the loop of [_renderWebGL] does not skip. *)
Definition other_textures (lastTexture : ref) (textures : list ref) : list ref :=
  List.filter (fun t => negb (t =? lastTexture)%nat) textures.

(** A computation that leaves the observation [f] of the state alone,
    whether it returns or throws. *)
Definition preserves {S A B} (f : S -> B) (m : M S A) : Prop :=
  forall s, f (snd (m s)) = f s.

(** ** ui/night/controls/crop.js: the handlers *)

(** The state of a [CropControls] instance and the handlers that work on
    it.  Vectors owned by the control are kept by value.  Numbers are
    rationals, so [0.1] is [1#10]; a division by zero, which gives an
    infinity or NaN in JavaScript, has no counterpart and is excluded by the
    hypotheses of the statements. *)
Module CropHandlers.
Import Vector2 Vector2Methods.

(** The sizes, in px, that [_updateDOM] writes to the styles of the areas;
    [None] while a style has not been written. *)
Record Areas : Type := {
  topLeft_width : option Q;
  topCenter_width : option Q;
  topLeft_height : option Q;
  centerLeft_height : option Q
}.

(** A ratio item of the controls, an [li] element. *)
Record Item : Type := {
  dataset_ratio : string;      (* item.dataset.ratio *)
  dataset_selected : bool;     (* typeof item.dataset.selected !== "undefined" *)
  active : bool;               (* classList has "imglykit-controls-item-active" *)
  click_listeners : nat        (* listeners added for "click" *)
}.

Record Control : Type := {
  _start : option (Vector2 Q);   (* this._start, null until a ratio is set *)
  _end : option (Vector2 Q);   (* this._end *)
  _ratio : option Q;   (* this._ratio, None for null *)
  _startBeforeDrag : option (Vector2 Q);   (* this._startBeforeDrag *)
  _endBeforeDrag : option (Vector2 Q);   (* this._endBeforeDrag *)
  _initialMousePosition : option (Vector2 Q);   (* this._initialMousePosition *)
  _currentKnob : option string;   (* dataset.corner of this._currentKnob *)
  _areas : option Areas;   (* this._areas, set by _onEnter *)
  _ratios : list Item;   (* this._ratios *)
  canvas_size : Vector2 Q;   (* this._ui.canvas.size *)
  listeners : list (string * string)   (* listeners on document: event type, handler *)
}.

Definition set_start (v : option (Vector2 Q)) (c : Control) : Control :=
  {| _start := v; _end := _end c; _ratio := _ratio c;
     _startBeforeDrag := _startBeforeDrag c;
     _endBeforeDrag := _endBeforeDrag c;
     _initialMousePosition := _initialMousePosition c;
     _currentKnob := _currentKnob c; _areas := _areas c;
     _ratios := _ratios c; canvas_size := canvas_size c;
     listeners := listeners c |}.

Definition set_end (v : option (Vector2 Q)) (c : Control) : Control :=
  {| _start := _start c; _end := v; _ratio := _ratio c;
     _startBeforeDrag := _startBeforeDrag c;
     _endBeforeDrag := _endBeforeDrag c;
     _initialMousePosition := _initialMousePosition c;
     _currentKnob := _currentKnob c; _areas := _areas c;
     _ratios := _ratios c; canvas_size := canvas_size c;
     listeners := listeners c |}.

Definition set_ratio (v : option Q) (c : Control) : Control :=
  {| _start := _start c; _end := _end c; _ratio := v;
     _startBeforeDrag := _startBeforeDrag c;
     _endBeforeDrag := _endBeforeDrag c;
     _initialMousePosition := _initialMousePosition c;
     _currentKnob := _currentKnob c; _areas := _areas c;
     _ratios := _ratios c; canvas_size := canvas_size c;
     listeners := listeners c |}.

Definition set_startBeforeDrag (v : option (Vector2 Q)) (c : Control) : Control :=
  {| _start := _start c; _end := _end c; _ratio := _ratio c;
     _startBeforeDrag := v; _endBeforeDrag := _endBeforeDrag c;
     _initialMousePosition := _initialMousePosition c;
     _currentKnob := _currentKnob c; _areas := _areas c;
     _ratios := _ratios c; canvas_size := canvas_size c;
     listeners := listeners c |}.

Definition set_endBeforeDrag (v : option (Vector2 Q)) (c : Control) : Control :=
  {| _start := _start c; _end := _end c; _ratio := _ratio c;
     _startBeforeDrag := _startBeforeDrag c; _endBeforeDrag := v;
     _initialMousePosition := _initialMousePosition c;
     _currentKnob := _currentKnob c; _areas := _areas c;
     _ratios := _ratios c; canvas_size := canvas_size c;
     listeners := listeners c |}.

Definition set_initialMousePosition (v : option (Vector2 Q)) (c : Control) : Control :=
  {| _start := _start c; _end := _end c; _ratio := _ratio c;
     _startBeforeDrag := _startBeforeDrag c;
     _endBeforeDrag := _endBeforeDrag c; _initialMousePosition := v;
     _currentKnob := _currentKnob c; _areas := _areas c;
     _ratios := _ratios c; canvas_size := canvas_size c;
     listeners := listeners c |}.

Definition set_currentKnob (v : option string) (c : Control) : Control :=
  {| _start := _start c; _end := _end c; _ratio := _ratio c;
     _startBeforeDrag := _startBeforeDrag c;
     _endBeforeDrag := _endBeforeDrag c;
     _initialMousePosition := _initialMousePosition c; _currentKnob := v;
     _areas := _areas c; _ratios := _ratios c; canvas_size := canvas_size c;
     listeners := listeners c |}.

Definition set_areas (v : option Areas) (c : Control) : Control :=
  {| _start := _start c; _end := _end c; _ratio := _ratio c;
     _startBeforeDrag := _startBeforeDrag c;
     _endBeforeDrag := _endBeforeDrag c;
     _initialMousePosition := _initialMousePosition c;
     _currentKnob := _currentKnob c; _areas := v; _ratios := _ratios c;
     canvas_size := canvas_size c; listeners := listeners c |}.

Definition set_ratios (v : list Item) (c : Control) : Control :=
  {| _start := _start c; _end := _end c; _ratio := _ratio c;
     _startBeforeDrag := _startBeforeDrag c;
     _endBeforeDrag := _endBeforeDrag c;
     _initialMousePosition := _initialMousePosition c;
     _currentKnob := _currentKnob c; _areas := _areas c; _ratios := v;
     canvas_size := canvas_size c; listeners := listeners c |}.

Definition set_canvas_size (v : Vector2 Q) (c : Control) : Control :=
  {| _start := _start c; _end := _end c; _ratio := _ratio c;
     _startBeforeDrag := _startBeforeDrag c;
     _endBeforeDrag := _endBeforeDrag c;
     _initialMousePosition := _initialMousePosition c;
     _currentKnob := _currentKnob c; _areas := _areas c;
     _ratios := _ratios c; canvas_size := v; listeners := listeners c |}.

Definition set_listeners (v : list (string * string)) (c : Control) : Control :=
  {| _start := _start c; _end := _end c; _ratio := _ratio c;
     _startBeforeDrag := _startBeforeDrag c;
     _endBeforeDrag := _endBeforeDrag c;
     _initialMousePosition := _initialMousePosition c;
     _currentKnob := _currentKnob c; _areas := _areas c;
     _ratios := _ratios c; canvas_size := canvas_size c; listeners := v |}.

(** Reading a field that must hold an object. *)
Definition need {A} (f : Control -> option A) : M Control A :=
  o <- gets f ;;
  match o with
  | Some a => ret a
  | None => throw (TypeError "Cannot read property of null")
  end.

(** [this._start.x = v] and the like. *)
Definition write_start_x (v : Q) : M Control unit :=
  s <- need _start ;; modify (set_start (Some (new v (y s)))).

Definition write_start_y (v : Q) : M Control unit :=
  s <- need _start ;; modify (set_start (Some (new (x s) v))).

Definition write_end_x (v : Q) : M Control unit :=
  e <- need _end ;; modify (set_end (Some (new v (y e)))).

Definition write_end_y (v : Q) : M Control unit :=
  e <- need _end ;; modify (set_end (Some (new (x e) v))).

(** [_updateDOM ()] *)
Definition _updateDOM : M Control unit :=
  start <- need _start ;;
  canvasSize <- gets canvas_size ;;
  let startAbsolute := multiply (clone start) canvasSize in
  end_ <- need _end ;;
  let endAbsolute := multiply (clone end_) canvasSize in
  let size := subtract (clone endAbsolute) startAbsolute in
  let top := Qmax 1 (y startAbsolute) in
  let left := Qmax 1 (x startAbsolute) in
  let width := Qmax 1 (x size) in
  let height := Qmax 1 (y size) in
  a <- need _areas ;;
  modify (set_areas (Some
    {| topLeft_width := Some left; topCenter_width := topCenter_width a;
       topLeft_height := topLeft_height a;
       centerLeft_height := centerLeft_height a |})) ;;
  a <- need _areas ;;
  modify (set_areas (Some
    {| topLeft_width := topLeft_width a; topCenter_width := Some width;
       topLeft_height := topLeft_height a;
       centerLeft_height := centerLeft_height a |})) ;;
  a <- need _areas ;;
  modify (set_areas (Some
    {| topLeft_width := topLeft_width a; topCenter_width := topCenter_width a;
       topLeft_height := Some top;
       centerLeft_height := centerLeft_height a |})) ;;
  a <- need _areas ;;
  modify (set_areas (Some
    {| topLeft_width := topLeft_width a; topCenter_width := topCenter_width a;
       topLeft_height := topLeft_height a;
       centerLeft_height := Some height |})).

(** [document.addEventListener(type, handler)]: a listener that is already
    registered is not registered again. *)
Definition same_listener (a b : string * string) : bool :=
  String.eqb (fst a) (fst b) && String.eqb (snd a) (snd b).

Definition addEventListener (type handler : string) : M Control unit :=
  modify (fun c =>
    if existsb (same_listener (type, handler)) (listeners c) then c
    else set_listeners (listeners c ++ [(type, handler)]) c).

(** [document.removeEventListener(type, handler)] *)
Definition removeEventListener (type handler : string) : M Control unit :=
  modify (fun c =>
    set_listeners
      (List.filter (fun l => negb (same_listener (type, handler) l)) (listeners c))
      c).

(** [_onKnobDown (e, knob)]; [position] is [Utils.getEventPosition(e)] and
    [knob] the corner of the knob. *)
Definition _onKnobDown (position : Vector2 Q) (knob : string) : M Control unit :=
  modify (set_currentKnob (Some knob)) ;;
  modify (set_initialMousePosition (Some position)) ;;
  s <- need _start ;;
  modify (set_startBeforeDrag (Some (clone s))) ;;
  e <- need _end ;;
  modify (set_endBeforeDrag (Some (clone e))) ;;
  addEventListener "mousemove" "_onKnobDrag" ;;
  addEventListener "touchmove" "_onKnobDrag" ;;
  addEventListener "mouseup" "_onKnobUp" ;;
  addEventListener "touchend" "_onKnobUp".

(** [_onKnobUp (e)] *)
Definition _onKnobUp : M Control unit :=
  modify (set_currentKnob None) ;;
  removeEventListener "mousemove" "_onKnobDrag" ;;
  removeEventListener "touchmove" "_onKnobDrag" ;;
  removeEventListener "mouseup" "_onKnobUp" ;;
  removeEventListener "touchend" "_onKnobUp".

(** [_onCenterDown (e)] *)
Definition _onCenterDown (position : Vector2 Q) : M Control unit :=
  modify (set_initialMousePosition (Some position)) ;;
  s <- need _start ;;
  modify (set_startBeforeDrag (Some (clone s))) ;;
  e <- need _end ;;
  modify (set_endBeforeDrag (Some (clone e))) ;;
  addEventListener "mousemove" "_onCenterDrag" ;;
  addEventListener "touchmove" "_onCenterDrag" ;;
  addEventListener "mouseup" "_onCenterUp" ;;
  addEventListener "touchend" "_onCenterUp".

(** [_onCenterUp (e)] *)
Definition _onCenterUp : M Control unit :=
  removeEventListener "mousemove" "_onCenterDrag" ;;
  removeEventListener "touchmove" "_onCenterDrag" ;;
  removeEventListener "mouseup" "_onCenterUp" ;;
  removeEventListener "touchend" "_onCenterUp".


(** An item reached through a reference. *)
Definition item_at (i : nat) : M Control Item :=
  o <- gets (fun c => _ratios c !! i) ;;
  match o with
  | Some it => ret it
  | None => throw (TypeError "Cannot read property of undefined")
  end.

Definition update_item (i : nat) (f : Item -> Item) : M Control unit :=
  modify (fun c => set_ratios (alter f i (_ratios c)) c).

(** [item.classList.add / remove ("imglykit-controls-item-active")] *)
Definition with_active (b : bool) (it : Item) : Item :=
  {| dataset_ratio := dataset_ratio it; dataset_selected := dataset_selected it;
     active := b; click_listeners := click_listeners it |}.

(** [item.addEventListener("click", ...)] with a new function. *)
Definition with_click (it : Item) : Item :=
  {| dataset_ratio := dataset_ratio it; dataset_selected := dataset_selected it;
     active := active it; click_listeners := S (click_listeners it) |}.

(** [_unselectAllRatios ()] *)
Definition _unselectAllRatios : M Control unit :=
  n <- gets (fun c => length (_ratios c)) ;;
  for_each (fun i => update_item i (with_active false)) (seq 0 n).

Section WithBuiltins.

(** The builtin [parseFloat], on the strings that denote a number. *)
Variable parseFloat : string -> Q.

(** [Vector2.prototype.copy], which is not among the sources. *)
Variable copy : Vector2 Q -> Vector2 Q -> Vector2 Q.

(** [_setRatio (ratio, resize=true)] *)
Definition _setRatio (ratio : string) (resize : bool) : M Control unit :=
  canvasSize <- gets canvas_size ;;
  (if String.eqb ratio "*" then
     modify (set_ratio None) ;;
     modify (set_start (Some (new (1#10) (1#10))%Q)) ;;
     modify (set_end (Some (new (9#10) (9#10))%Q))
   else
     let ratio := parseFloat ratio in
     modify (set_ratio (Some ratio)) ;;
     if resize then
       if Qle_bool (x canvasSize / y canvasSize) ratio then
         write_start_x (1#10)%Q ;;
         write_end_x (9#10)%Q ;;
         let height := (1 / y canvasSize * (x canvasSize / ratio * (8#10)))%Q in
         write_start_y ((1 - height) / 2)%Q ;;
         s <- need _start ;;
         write_end_y (1 - y s)%Q
       else
         write_start_y (1#10)%Q ;;
         write_end_y (9#10)%Q ;;
         let width := (1 / x canvasSize * (ratio * y canvasSize * (8#10)))%Q in
         write_start_x ((1 - width) / 2)%Q ;;
         s <- need _start ;;
         write_end_x (1 - x s)%Q
     else ret tt) ;;
  _updateDOM.

(** [_selectRatio (item)] *)
Definition _selectRatio (item : nat) : M Control unit :=
  update_item item (with_active true) ;;
  it <- item_at item ;;
  _setRatio (dataset_ratio it) true.

(** [_onRatioClick (item)] *)
Definition _onRatioClick (item : nat) : M Control unit :=
  _unselectAllRatios ;;
  _selectRatio item.

(** [_handleControls ()]; [listItems] is what
    [this._controls.querySelectorAll("ul > li")] finds. *)
Definition _handleControls (listItems : list Item) : M Control unit :=
  modify (set_ratios listItems) ;;
  n <- gets (fun c => length (_ratios c)) ;;
  for_each
    (fun item =>
       it <- item_at item ;;
       s <- gets _start ;;
       e <- gets _end ;;
       (if dataset_selected it && negb (bool_decide (is_Some s))
           && negb (bool_decide (is_Some e))
        then
          _setRatio (dataset_ratio it) false ;;
          _selectRatio item
        else _updateDOM) ;;
       update_item item with_click)
    (seq 0 n).


End WithBuiltins.
End CropHandlers.

(** ** [ImglyKit.prototype.getAssetPath] *)

Module ImglyKitPrototype.
Import ImglyKit.

Section WithEnvironment.

(** [typeof window !== "undefined"] *)
Variable isBrowser : bool.

(** [require("path").resolve] *)
Variable path_resolve : string -> string -> string.

(** [getAssetPath (asset)].  An [assetsUrl] that is undefined is
    concatenated as the text "undefined"; [path.resolve] refuses it. *)
Definition getAssetPath (asset : string) : M State string :=
  options <- field _options ;;
  if isBrowser then
    ret ((match assetsUrl options with Some u => u | None => "undefined" end)
           ++ "/" ++ asset)%string
  else
    match assetsUrl options with
    | Some u => ret (path_resolve u asset)
    | None => throw (TypeError "The path argument must be of type string")
    end.

End WithEnvironment.
End ImglyKitPrototype.

(** ** Vocabulary for the crop statements *)



(** The styles [_updateDOM] writes for a crop between [start_] and [end_]
    on a canvas of size [canvasSize]. *)
Definition styles_of (canvasSize start_ end_ : Vector2 Q) : CropHandlers.Areas :=
  {| CropHandlers.topLeft_width :=
       Some (Qmax 1 (Vector2.x start_ * Vector2.x canvasSize));
     CropHandlers.topCenter_width :=
       Some (Qmax 1 (Vector2.x end_ * Vector2.x canvasSize
                     - Vector2.x start_ * Vector2.x canvasSize));
     CropHandlers.topLeft_height :=
       Some (Qmax 1 (Vector2.y start_ * Vector2.y canvasSize));
     CropHandlers.centerLeft_height :=
       Some (Qmax 1 (Vector2.y end_ * Vector2.y canvasSize
                     - Vector2.y start_ * Vector2.y canvasSize)) |}.

(** A control as [init] leaves it ([_start] and [_end] are null), once
    [_onEnter] has found the areas, on a canvas of the given size. *)
Definition control_on (canvasSize : Vector2 Q) : CropHandlers.Control :=
  {| CropHandlers._start := None;
     CropHandlers._end := None;
     CropHandlers._ratio := None;
     CropHandlers._startBeforeDrag := None;
     CropHandlers._endBeforeDrag := None;
     CropHandlers._initialMousePosition := None;
     CropHandlers._currentKnob := None;
     CropHandlers._areas :=
       Some {| CropHandlers.topLeft_width := None;
               CropHandlers.topCenter_width := None;
               CropHandlers.topLeft_height := None;
               CropHandlers.centerLeft_height := None |};
     CropHandlers._ratios := [];
     CropHandlers.canvas_size := canvasSize;
     CropHandlers.listeners := [] |}.

(** A ratio item as the template has it: not active, no listener yet. *)
Definition ratio_item (ratio : string) (selected : bool) : CropHandlers.Item :=
  {| CropHandlers.dataset_ratio := ratio;
     CropHandlers.dataset_selected := selected;
     CropHandlers.active := false;
     CropHandlers.click_listeners := 0 |}.

(** A [parseFloat] for the examples: the texts "1" and "1.5". *)
Definition parse_example (text : string) : Q :=
  if String.eqb text "1.5" then (3#2)%Q else 1%Q.

(** The listeners on the document after one more registration, and after
    a removal. *)
Definition listen (l : string * string) (ls : list (string * string))
  : list (string * string) :=
  if existsb (CropHandlers.same_listener l) ls then ls else ls ++ [l].

Definition unlisten (l : string * string) (ls : list (string * string))
  : list (string * string) :=
  List.filter (fun l' => negb (CropHandlers.same_listener l l')) ls.

(** The listeners a pressed knob, and a pressed centre, put on the
    document. *)
Definition knob_handlers : list (string * string) :=
  [ ("mousemove", "_onKnobDrag"); ("touchmove", "_onKnobDrag");
    ("mouseup", "_onKnobUp"); ("touchend", "_onKnobUp") ].

Definition center_handlers : list (string * string) :=
  [ ("mousemove", "_onCenterDrag"); ("touchmove", "_onCenterDrag");
    ("mouseup", "_onCenterUp"); ("touchend", "_onCenterUp") ].

(** ** Vocabulary for the [ImglyKit] statements *)

(** The fields of an instance once the constructor has passed its two
    checks and registered the default UI. *)
Definition initialised (NightUI : ImglyKit.UI) (o : ImglyKit.OptionsObject)
    (s : ImglyKit.State) : ImglyKit.Instance :=
  {| ImglyKit._options := Some (ImglyKit.defaults o);
     ImglyKit._registeredUIs := Some [(ImglyKit.ui_identifier NightUI, NightUI)];
     ImglyKit.operationsStack := Some [];
     ImglyKit.attached_ui := ImglyKit.attached_ui (ImglyKit.this s) |}.

(** The same with the UI constructed and attached. *)
Definition initialised_with_ui (NightUI : ImglyKit.UI)
    (o : ImglyKit.OptionsObject) : ImglyKit.Instance :=
  {| ImglyKit._options := Some (ImglyKit.defaults o);
     ImglyKit._registeredUIs := Some [(ImglyKit.ui_identifier NightUI, NightUI)];
     ImglyKit.operationsStack := Some [];
     ImglyKit.attached_ui :=
       Some {| ImglyKit.ui_class := NightUI;
               ImglyKit.ui_container := ImglyKit.container (ImglyKit.defaults o);
               ImglyKit.ui_assetsUrl := ImglyKit.assetsUrl (ImglyKit.defaults o) |} |}.

(** The assets URL the constructor leaves in the options. *)
Definition assetsUrl_or_default (o : ImglyKit.OptionsObject) : string :=
  match ImglyKit.assetsUrl o with Some u => u | None => "assets" end.

(** * Properties *)

(** ** The monad *)

Lemma bind_ret_l {S A B} (a : A) (k : A -> M S B) s : bind (ret a) k s = k a s.
Proof. reflexivity. Qed.

Lemma bind_throw {S A B} (e : exn) (k : A -> M S B) s :
  bind (throw e) k s = (inl e, s).
Proof. reflexivity. Qed.

Lemma bind_returns {S A B} (m : M S A) (k : A -> M S B) s a s' :
  m s = (inr a, s') -> bind m k s = k a s'.
Proof. unfold bind. intros ->. reflexivity. Qed.

Lemma bind_throws {S A B} (m : M S A) (k : A -> M S B) s e s' :
  m s = (inl e, s') -> bind m k s = (inl e, s').
Proof. unfold bind. intros ->. reflexivity. Qed.

Lemma deref_Some {A} (store : World -> list A) r a w :
  store w !! r = Some a -> deref store r w = (inr a, w).
Proof. unfold deref, bind, gets. cbn. intros ->. reflexivity. Qed.

(** ** Remainders *)

Lemma js_rem_360_180 d : js_rem (js_rem d 360) 180 = js_rem d 180.
Proof.
  unfold js_rem.
  pose proof (Z.quot_rem' d 360) as E.
  rewrite E at 2.
  replace (360 * (d ÷ 360) + Z.rem d 360) with (Z.rem d 360 + (2 * (d ÷ 360)) * 180) by lia.
  symmetry. apply Z.rem_add; [lia|].
  replace (Z.rem d 360 + 2 * (d ÷ 360) * 180) with d by lia.
  rewrite Z.mul_comm. apply Z.rem_sign_mul. lia.
Qed.

(** ** The primitives, one step at a time *)

Lemma gets_run {S A} (f : S -> A) s : gets f s = (inr (f s), s).
Proof. reflexivity. Qed.

Lemma modify_run {S} (f : S -> S) s : modify f s = (inr tt, f s).
Proof. reflexivity. Qed.

Lemma ret_run {S A} (a : A) (s : S) : ret a s = (inr a, s).
Proof. reflexivity. Qed.

Lemma emit_run e w : emit e w = (inr tt, with_log (fun l => l ++ [e]) w).
Proof. reflexivity. Qed.

Lemma get_x_run v o w :
  vectors w !! v = Some o -> get_x v w = (inr (Vector2.x o), w).
Proof. intros H. unfold get_x. erewrite bind_returns by (apply deref_Some; exact H). reflexivity. Qed.

Lemma get_y_run v o w :
  vectors w !! v = Some o -> get_y v w = (inr (Vector2.y o), w).
Proof. intros H. unfold get_y. erewrite bind_returns by (apply deref_Some; exact H). reflexivity. Qed.

Lemma set_x_run v value o w :
  vectors w !! v = Some o ->
  set_x v value w =
    (inr tt, with_vectors (fun h => <[v := Vector2.new value (Vector2.y o)]> h) w).
Proof. intros H. unfold set_x. erewrite bind_returns by (apply deref_Some; exact H). reflexivity. Qed.

Lemma set_y_run v value o w :
  vectors w !! v = Some o ->
  set_y v value w =
    (inr tt, with_vectors (fun h => <[v := Vector2.new (Vector2.x o) value]> h) w).
Proof. intros H. unfold set_y. erewrite bind_returns by (apply deref_Some; exact H). reflexivity. Qed.

Lemma new_Vector2_run vx vy w :
  new_Vector2 vx vy w =
    (inr (length (vectors w)), with_vectors (fun h => h ++ [Vector2.new vx vy]) w).
Proof. reflexivity. Qed.

Lemma get_width_run c o w :
  canvases w !! c = Some o -> get_width c w = (inr (width o), w).
Proof. intros H. unfold get_width. erewrite bind_returns by (apply deref_Some; exact H). reflexivity. Qed.

Lemma get_height_run c o w :
  canvases w !! c = Some o -> get_height c w = (inr (height o), w).
Proof. intros H. unfold get_height. erewrite bind_returns by (apply deref_Some; exact H). reflexivity. Qed.

Lemma set_width_run c value o w :
  canvases w !! c = Some o ->
  set_width c value w =
    (inr tt,
     with_log (fun l => l ++ [EvSetWidth c value])
       (with_canvases (fun h => <[c := {| width := value; height := height o |}]> h) w)).
Proof. intros H. unfold set_width. erewrite bind_returns by (apply deref_Some; exact H). reflexivity. Qed.

Lemma set_height_run c value o w :
  canvases w !! c = Some o ->
  set_height c value w =
    (inr tt,
     with_log (fun l => l ++ [EvSetHeight c value])
       (with_canvases (fun h => <[c := {| width := width o; height := value |}]> h) w)).
Proof. intros H. unfold set_height. erewrite bind_returns by (apply deref_Some; exact H). reflexivity. Qed.

Lemma context2d_run c call w :
  context2d c call w = (inr tt, with_log (fun l => l ++ [EvContext c call]) w).
Proof. reflexivity. Qed.

Lemma bindTexture_run t w :
  bindTexture t w =
    (inr tt, with_log (fun l => l ++ [EvBindTexture t]) (with_gl_TEXTURE_2D (Some t) w)).
Proof. reflexivity. Qed.

Lemma texImage2D_run t sw sh w :
  gl_TEXTURE_2D w = Some t ->
  texImage2D sw sh w =
    (inr tt,
     with_log (fun l => l ++ [EvTexImage2D t sw sh])
       (with_texture_store
          (fun s => <[t := {| tex_width := sw; tex_height := sh |}]> s) w)).
Proof. intros H. unfold texImage2D, bind. rewrite gets_run, H. reflexivity. Qed.

(** One step of a sequence whose head is known to return. *)
Ltac js_step lem := erewrite bind_returns by (apply lem; eassumption).
Ltac js_gets := erewrite bind_returns by (apply gets_run).

(** ** [getNewDimensions] *)

Lemma swaps_true d : swaps d = true <-> js_rem d 180 <> 0.
Proof.
  unfold swaps. rewrite js_rem_360_180, negb_true_iff, Z.eqb_neq. tauto.
Qed.

Lemma swaps_false d : swaps d = false <-> js_rem d 180 = 0.
Proof.
  unfold swaps. rewrite js_rem_360_180, negb_false_iff, Z.eqb_eq. tauto.
Qed.

(** The body of the branch exchanges the two fields of the object. *)
Lemma exchange_run d v w :
  vectors w !! d = Some v ->
  (tempX <- get_x d ;; dy <- get_y d ;; set_x d dy ;; set_y d tempX) w =
    (inr tt, with_vectors (fun h => <[d := swapped v]> h) w).
Proof.
  intros Hin.
  assert (Hlt : (d < length (vectors w))%nat) by (eapply lookup_lt_Some; eauto).
  js_step get_x_run. js_step get_y_run. js_step set_x_run.
  erewrite set_y_run by (cbn; apply list_lookup_insert_eq; exact Hlt).
  unfold with_vectors; cbn. rewrite list_insert_insert_eq. reflexivity.
Qed.

(** What a call does, given the vector it starts from: with a vector passed
    in, that very object is returned, its fields exchanged in place when
    the branch is taken; without one, a new object is allocated. *)
Lemma getNewDimensions_run dimensions w v :
  input_dimensions dimensions w = Some v ->
  getNewDimensions dimensions w =
    match dimensions with
    | Some d =>
        (inr d,
         if swaps (degrees (this_options w))
         then with_vectors (fun h => <[d := swapped v]> h) w
         else w)
    | None =>
        (inr (length (vectors w)),
         with_vectors (fun h => h ++ [rotated (degrees (this_options w)) v]) w)
    end.
Proof.
  destruct dimensions as [d|]; cbn [input_dimensions]; intros Hin.
  - unfold getNewDimensions.
    js_gets. rewrite bind_ret_l. js_gets.
    fold (swaps (degrees (this_options w))).
    destruct (swaps (degrees (this_options w))).
    + erewrite bind_returns by (apply exchange_run; exact Hin). reflexivity.
    + reflexivity.
  - destruct (canvases w !! renderer_canvas w) as [c|] eqn:Hc; [|discriminate].
    injection Hin as <-.
    unfold getNewDimensions.
    js_gets.
    erewrite bind_returns; cycle 1.
    { js_step get_width_run. js_step get_height_run. apply new_Vector2_run. }
    js_gets. unfold rotated. cbn [this_options with_vectors].
    fold (swaps (degrees (this_options w))).
    destruct (swaps (degrees (this_options w))).
    + erewrite bind_returns; cycle 1.
      { apply exchange_run. cbn. apply list_lookup_middle. reflexivity. }
      unfold ret, with_vectors; cbn.
      rewrite insert_app_r_alt, Nat.sub_diag by lia. reflexivity.
    + reflexivity.
Qed.

(** ** Stores that grow at the end *)

Lemma lookup_alloc {A} (l : list A) a : (l ++ [a]) !! length l = Some a.
Proof. apply list_lookup_middle. reflexivity. Qed.

Lemma lookup_alloc_old {A} (l : list A) a i b :
  l !! i = Some b -> (l ++ [a]) !! i = Some b.
Proof. intros H. rewrite lookup_app_l; [exact H | eapply lookup_lt_Some; eauto]. Qed.

Lemma insert_alloc {A} (l : list A) a b : <[length l := b]> (l ++ [a]) = l ++ [b].
Proof. rewrite insert_app_r_alt, Nat.sub_diag by lia. reflexivity. Qed.

(** Brings a world reached through setters back to a record. *)
Ltac world_simpl :=
  unfold with_vectors, with_canvases, with_renderer_canvas, with_texture_store,
    with_gl_TEXTURE_2D, with_log;
  cbn [this_options vectors canvases renderer_canvas texture_store
       renderer_textures renderer_lastTexture renderer_currentTexture
       gl_TEXTURE_2D log width height tex_width tex_height];
  rewrite ?insert_alloc.

(** ** [_renderCanvas] *)

(** The whole run of [_renderCanvas] from a world whose renderer holds the
    canvas [c]. *)
Lemma _renderCanvas_run w c :
  canvases w !! renderer_canvas w = Some c ->
  let d := degrees (this_options w) in
  let nd := rotated d (size_of c) in
  let newCanvas := length (canvases w) in
  let tempCanvas := S newCanvas in
  _renderCanvas w =
    (inr tt,
     {| this_options := this_options w;
        vectors := vectors w ++ [nd];
        canvases := canvases w ++ [canvas_of nd; c];
        renderer_canvas := newCanvas;
        texture_store := texture_store w;
        renderer_textures := renderer_textures w;
        renderer_lastTexture := renderer_lastTexture w;
        renderer_currentTexture := renderer_currentTexture w;
        gl_TEXTURE_2D := gl_TEXTURE_2D w;
        log := log w ++
          [ EvCreateCanvas newCanvas;
            EvSetWidth newCanvas (Vector2.x nd);
            EvSetHeight newCanvas (Vector2.y nd);
            EvContext newCanvas save;
            EvContext newCanvas
              (translate (IZR (Vector2.x nd) / 2) (IZR (Vector2.y nd) / 2));
            EvContext newCanvas (rotate (radians_of (js_rem d 360)));
            EvCloneCanvas (renderer_canvas w) tempCanvas;
            EvContext newCanvas
              (drawImage tempCanvas (- IZR (width c) / 2) (- IZR (height c) / 2));
            EvContext newCanvas restore;
            EvSetCanvas newCanvas ] |}).
Proof.
  intros Hc d nd newCanvas tempCanvas. subst newCanvas tempCanvas.
  unfold _renderCanvas.
  js_gets. js_gets.
  erewrite bind_returns; cycle 1.
  { apply (getNewDimensions_run None). cbn. rewrite Hc. reflexivity. }
  fold d. fold (size_of c). fold nd.
  unfold createCanvas. 
  erewrite bind_returns; cycle 1.
  { js_gets. erewrite bind_returns by apply modify_run.
    erewrite bind_returns by apply emit_run. apply ret_run. }
  cbn [canvases with_canvases with_log with_vectors].
  world_simpl.
  erewrite bind_returns; cycle 1.
  { apply get_x_run. cbn. apply lookup_alloc. }
  erewrite bind_returns; cycle 1.
  { apply set_width_run. cbn. apply lookup_alloc. }
  world_simpl.
  erewrite bind_returns; cycle 1.
  { apply get_y_run. cbn. apply lookup_alloc. }
  erewrite bind_returns; cycle 1.
  { apply set_height_run. cbn. apply lookup_alloc. }
  world_simpl.
  erewrite bind_returns by apply context2d_run.
  erewrite bind_returns; cycle 1.
  { apply get_width_run. cbn. apply lookup_alloc. }
  erewrite bind_returns; cycle 1.
  { apply get_height_run. cbn. apply lookup_alloc. }
  erewrite bind_returns by apply context2d_run.
  erewrite bind_returns by apply context2d_run.
  world_simpl.
  unfold cloneCanvas.
  erewrite bind_returns; cycle 1.
  { js_gets. erewrite bind_returns; cycle 1.
    { apply deref_Some. cbn. apply lookup_alloc_old. exact Hc. }
    js_gets. erewrite bind_returns by apply modify_run.
    erewrite bind_returns by apply emit_run. apply ret_run. }
  world_simpl.
  rewrite length_app. cbn [length]. rewrite Nat.add_1_r.
  erewrite bind_returns; cycle 1.
  { apply get_width_run. cbn. apply lookup_alloc_old, lookup_alloc_old. exact Hc. }
  erewrite bind_returns; cycle 1.
  { apply get_height_run. cbn. apply lookup_alloc_old, lookup_alloc_old. exact Hc. }
  erewrite bind_returns by apply context2d_run.
  erewrite bind_returns by apply context2d_run.
  unfold setCanvas.
  erewrite bind_returns by apply modify_run.
  rewrite emit_run. world_simpl.
  rewrite <- !app_assoc. reflexivity.
Qed.

(** ** [_renderWebGL] *)

(** Binding a texture and then specifying its image. *)
Lemma resize_run canvas cv t w :
  canvases w !! canvas = Some cv ->
  (bindTexture t ;;
   cw <- get_width canvas ;;
   ch <- get_height canvas ;;
   texImage2D cw ch) w =
    (inr tt,
     with_log (fun l => l ++ resize_events (size_of cv) t)
       (with_gl_TEXTURE_2D (Some t)
          (with_texture_store (fun s => <[t := texture_of (size_of cv)]> s) w))).
Proof.
  intros Hc.
  erewrite bind_returns by apply bindTexture_run.
  erewrite bind_returns; cycle 1.
  { apply get_width_run. cbn. exact Hc. }
  erewrite bind_returns; cycle 1.
  { apply get_height_run. cbn. exact Hc. }
  erewrite texImage2D_run by reflexivity.
  world_simpl. unfold resize_events, texture_of, size_of. cbn.
  rewrite <- app_assoc. reflexivity.
Qed.

(** The loop over [renderer.getTextures()]: every texture but the input
    one is bound and resized, in order. *)
Lemma resize_loop_run canvas cv lastTexture textures : forall w,
  canvases w !! canvas = Some cv ->
  for_each
    (fun texture =>
       if (texture =? lastTexture)%nat then ret tt
       else
         bindTexture texture ;;
         cw <- get_width canvas ;;
         ch <- get_height canvas ;;
         texImage2D cw ch)
    textures w =
    (inr tt,
     with_log
       (fun l => l ++ flat_map (resize_events (size_of cv))
                        (other_textures lastTexture textures))
       (with_gl_TEXTURE_2D
          (fold_left (fun _ t => Some t) (other_textures lastTexture textures)
             (gl_TEXTURE_2D w))
          (with_texture_store
             (fun s => fold_left (fun s t => <[t := texture_of (size_of cv)]> s)
                         (other_textures lastTexture textures) s)
             w))).
Proof.
  induction textures as [|t ts IH]; intros w Hc.
  - destruct w. unfold ret. world_simpl. cbn. rewrite app_nil_r. reflexivity.
  - cbn [for_each other_textures List.filter].
    fold (other_textures lastTexture ts).
    destruct (t =? lastTexture)%nat; cbn [negb].
    + rewrite bind_ret_l. apply IH, Hc.
    + erewrite bind_returns by (apply resize_run; exact Hc).
      rewrite IH by exact Hc.
      world_simpl. cbn [flat_map fold_left].
      rewrite <- app_assoc. reflexivity.
Qed.

(** The run of [_renderWebGL] when the branch is not taken (0 and 180
    degrees): one draw, then the input texture is specified again at the
    size of the canvas. *)
Lemma _renderWebGL_run_keep w c :
  canvases w !! renderer_canvas w = Some c ->
  swaps (degrees (this_options w)) = false ->
  let d := degrees (this_options w) in
  let lastTexture := renderer_lastTexture w in
  _renderWebGL w =
    (inr tt,
     {| this_options := this_options w;
        vectors := vectors w;
        canvases := canvases w;
        renderer_canvas := renderer_canvas w;
        texture_store :=
          <[lastTexture := texture_of (size_of c)]> (texture_store w);
        renderer_textures := renderer_textures w;
        renderer_lastTexture := lastTexture;
        renderer_currentTexture := renderer_currentTexture w;
        gl_TEXTURE_2D := Some lastTexture;
        log := log w ++
          [ EvRunShader lastTexture (renderer_currentTexture w)
              (rotationMatrix (radians_of (js_rem d 360))) ] ++
          resize_events (size_of c) lastTexture |}).
Proof.
  intros Hc Hsw d lastTexture. subst lastTexture.
  unfold _renderWebGL.
  js_gets. js_gets. js_gets.
  fold (swaps (degrees (this_options w))). rewrite Hsw.
  rewrite bind_ret_l.
  unfold runShader.
  erewrite bind_returns; cycle 1.
  { js_gets. js_gets. apply emit_run. }
  erewrite resize_run by (cbn; exact Hc).
  world_simpl. rewrite <- app_assoc. reflexivity.
Qed.

(** The run of [_renderWebGL] when the branch is taken (90 and 270
    degrees). *)
Lemma _renderWebGL_run_swap w c :
  canvases w !! renderer_canvas w = Some c ->
  swaps (degrees (this_options w)) = true ->
  let d := degrees (this_options w) in
  let nd := swapped (size_of c) in
  let canvas := renderer_canvas w in
  let lastTexture := renderer_lastTexture w in
  let currentTexture := renderer_currentTexture w in
  let others := other_textures lastTexture (renderer_textures w) in
  _renderWebGL w =
    (inr tt,
     {| this_options := this_options w;
        vectors := vectors w ++ [nd];
        canvases := <[canvas := canvas_of nd]> (canvases w);
        renderer_canvas := canvas;
        texture_store :=
          <[lastTexture := texture_of nd]>
            (fold_left (fun s t => <[t := texture_of nd]> s) others
               (<[currentTexture := texture_of nd]> (texture_store w)));
        renderer_textures := renderer_textures w;
        renderer_lastTexture := lastTexture;
        renderer_currentTexture := currentTexture;
        gl_TEXTURE_2D := Some lastTexture;
        log := log w ++
          ([ EvSetWidth canvas (Vector2.x nd);
             EvSetHeight canvas (Vector2.y nd) ] ++
           resize_events nd currentTexture ++
           flat_map (resize_events nd) others) ++
          [ EvRunShader lastTexture currentTexture
              (rotationMatrix (radians_of (js_rem d 360))) ] ++
          resize_events nd lastTexture |}).
Proof.
  intros Hc Hsw d nd canvas lastTexture currentTexture others.
  subst canvas lastTexture currentTexture others.
  assert (Hlt : (renderer_canvas w < length (canvases w))%nat)
    by (eapply lookup_lt_Some; eauto).
  unfold _renderWebGL.
  js_gets. js_gets. js_gets.
  fold (swaps (degrees (this_options w))). rewrite Hsw.
  erewrite bind_returns; cycle 1.
  { erewrite bind_returns; cycle 1.
    { apply (getNewDimensions_run None). cbn. rewrite Hc. reflexivity. }
    unfold rotated. rewrite Hsw. fold (size_of c). fold nd.
    erewrite bind_returns; cycle 1.
    { apply get_x_run. cbn. apply lookup_alloc. }
    erewrite bind_returns; cycle 1.
    { apply set_width_run. cbn. exact Hc. }
    world_simpl.
    erewrite bind_returns; cycle 1.
    { apply get_y_run. cbn. apply lookup_alloc. }
    erewrite bind_returns; cycle 1.
    { apply set_height_run. cbn. apply list_lookup_insert_eq. exact Hlt. }
    world_simpl. rewrite list_insert_insert_eq.
    js_gets. cbn [renderer_currentTexture].
    erewrite bind_returns by apply bindTexture_run.
    erewrite bind_returns; cycle 1.
    { apply get_width_run. cbn. apply list_lookup_insert_eq. exact Hlt. }
    erewrite bind_returns; cycle 1.
    { apply get_height_run. cbn. apply list_lookup_insert_eq. exact Hlt. }
    erewrite bind_returns by (apply texImage2D_run; reflexivity).
    js_gets. world_simpl.
    apply resize_loop_run with (cv := canvas_of nd).
    cbn. apply list_lookup_insert_eq. exact Hlt. }
  world_simpl.
  unfold runShader.
  erewrite bind_returns; cycle 1.
  { js_gets. js_gets. apply emit_run. }
  erewrite resize_run with (cv := canvas_of nd); cycle 1.
  { cbn. apply list_lookup_insert_eq. exact Hlt. }
  world_simpl.
  unfold resize_events, texture_of, canvas_of, size_of. cbn.
  rewrite <- !app_assoc. reflexivity.
Qed.

(** ** Construction *)

Lemma RotationOperation_new_valid d :
  js_rem d 90 = 0 -> RotationOperation_new (Some d) = inr {| degrees := d |}.
Proof.
  intros H. unfold RotationOperation_new, degrees_validation.
  rewrite H. reflexivity.
Qed.

Lemma RotationOperation_new_invalid d :
  js_rem d 90 <> 0 ->
  RotationOperation_new (Some d) =
    inl (Error "RotationOperation: `rotation` has to be a multiple of 90.").
Proof.
  intros H. unfold RotationOperation_new, degrees_validation.
  apply Z.eqb_neq in H. rewrite H. reflexivity.
Qed.

Lemma RotationOperation_new_degrees d o :
  RotationOperation_new (Some d) = inr o -> degrees o = d /\ js_rem d 90 = 0.
Proof.
  unfold RotationOperation_new, degrees_validation.
  destruct (js_rem d 90 =? 0) eqn:E; cbn; [|discriminate].
  intros [= <-]. apply Z.eqb_eq in E. auto.
Qed.

(** ** Dimensions after a call of [getNewDimensions] *)

(** The object returned holds the starting vector, exchanged or not. *)
Lemma getNewDimensions_result dimensions w v :
  input_dimensions dimensions w = Some v ->
  exists r w',
    getNewDimensions dimensions w = (inr r, w') /\
    vectors w' !! r = Some (rotated (degrees (this_options w)) v).
Proof.
  intros Hin. rewrite (getNewDimensions_run _ _ Hin).
  destruct dimensions as [r|]; cbn in Hin.
  - eexists _, _. split; [reflexivity|].
    unfold rotated. destruct (swaps _); [|exact Hin].
    cbn. apply list_lookup_insert_eq. eapply lookup_lt_Some; eauto.
  - eexists _, _. split; [reflexivity|]. cbn. apply lookup_alloc.
Qed.

(** X2.  Without a vector passed in, the call only allocates: the canvas,
    the textures, the log and every vector that existed are as they were. *)
Lemma getNewDimensions_default_only_allocates w c :
  canvases w !! renderer_canvas w = Some c ->
  exists r w',
    getNewDimensions None w = (inr r, w') /\
    canvases w' = canvases w /\
    texture_store w' = texture_store w /\
    log w' = log w /\
    forall i v, vectors w !! i = Some v -> vectors w' !! i = Some v.
Proof.
  intros Hc.
  rewrite (getNewDimensions_run None w (v := size_of c))
    by (cbn; rewrite Hc; reflexivity).
  eexists _, _. split; [reflexivity|]. cbn.
  repeat split. intros i v Hv. apply lookup_alloc_old, Hv.
Qed.

(** With a vector passed in and the branch taken, the caller's object is
    overwritten with its fields exchanged. *)
Lemma getNewDimensions_argument_exchanged w D v :
  vectors w !! D = Some v ->
  swaps (degrees (this_options w)) = true ->
  exists w',
    getNewDimensions (Some D) w = (inr D, w') /\
    vectors w' !! D = Some (swapped v).
Proof.
  intros Hv Hsw.
  rewrite (getNewDimensions_run (Some D) w (v := v)) by exact Hv.
  rewrite Hsw. eexists. split; [reflexivity|].
  cbn. apply list_lookup_insert_eq. eapply lookup_lt_Some; eauto.
Qed.

Lemma swapped_eq_iff (v : Vector2 Z) : swapped v = v <-> Vector2.x v = Vector2.y v.
Proof.
  destruct v as [a b]. unfold swapped. cbn. split.
  - intros [= -> _]. reflexivity.
  - intros ->. reflexivity.
Qed.

(** C1.  [getNewDimensions] called with a dimensions vector exchanges the
    fields of that very object when the rotation is by 90 degrees: after
    the call on the vector 100 x 200 the caller's object reads 200 x 100,
    and a second call on the same object gives 100 x 200 again.  The call
    is not free of side effects on its argument, and two calls with the same
    object do not give the same result. *)
Theorem getNewDimensions_exchanges_its_argument :
  let w := with_vectors (fun _ => [Vector2.new 100 200]) (world_of 90 300 150) in
  exists w1 w2,
    vectors w !! 0%nat = Some (Vector2.new 100 200) /\
    getNewDimensions (Some 0%nat) w = (inr 0%nat, w1) /\
    vectors w1 !! 0%nat = Some (Vector2.new 200 100) /\
    getNewDimensions (Some 0%nat) w1 = (inr 0%nat, w2) /\
    vectors w2 !! 0%nat = Some (Vector2.new 100 200).
Proof.
  cbv zeta. eexists _, _.
  split; [reflexivity|].
  split; [vm_compute; reflexivity|].
  split; [reflexivity|].
  split; [vm_compute; reflexivity|].
  reflexivity.
Qed.

(** C2, as stated, fails: were the dimensions returned unchanged only when
    degrees mod 360 = 0, a rotation by 180 degrees would have to change a
    100 x 200 canvas size; it does not. *)
Lemma getNewDimensions_identity_not_only_mod_360 :
  ~ (forall (d : Z) (w : World) (c : Canvas) (r : ref) (w' : World),
       RotationOperation_new (Some d) = inr (this_options w) ->
       canvases w !! renderer_canvas w = Some c ->
       getNewDimensions None w = (inr r, w') ->
       (vectors w' !! r = Some (size_of c) <-> js_rem d 360 = 0)).
Proof.
  intros H.
  specialize (H 180 (world_of 180 100 200) {| width := 100; height := 200 |}
                0%nat (snd (getNewDimensions None (world_of 180 100 200)))).
  assert (E : js_rem 180 360 = 0) by (apply H; reflexivity).
  vm_compute in E. discriminate E.
Qed.

(** C2, amended.  For a rotation constructed with validated degrees [d],
    [getNewDimensions] returns the starting vector (the one passed in, or
    the canvas size) with width and height exchanged when d mod 180 <> 0 and
    unchanged when d mod 180 = 0, hence also whenever d mod 360 = 0; for a
    vector that is not square these are equivalences. *)
Theorem getNewDimensions_swaps_iff_not_multiple_of_180 d dimensions w v :
  RotationOperation_new (Some d) = inr (this_options w) ->
  input_dimensions dimensions w = Some v ->
  exists r w',
    getNewDimensions dimensions w = (inr r, w') /\
    (js_rem d 180 <> 0 -> vectors w' !! r = Some (swapped v)) /\
    (js_rem d 180 = 0 -> vectors w' !! r = Some v) /\
    (js_rem d 360 = 0 -> vectors w' !! r = Some v) /\
    (Vector2.x v <> Vector2.y v ->
       (vectors w' !! r = Some (swapped v) <-> js_rem d 180 <> 0) /\
       (vectors w' !! r = Some v <-> js_rem d 180 = 0)).
Proof.
  intros Hnew Hin.
  apply RotationOperation_new_degrees in Hnew as [Hd _].
  destruct (getNewDimensions_result _ _ Hin) as (r & w' & Hrun & Hres).
  rewrite Hd in Hres. unfold rotated in Hres.
  exists r, w'. split; [exact Hrun|].
  pose proof (swaps_true d) as Ht. pose proof (swaps_false d) as Hf.
  assert (H360 : js_rem d 360 = 0 -> js_rem d 180 = 0).
  { intros E. rewrite <- js_rem_360_180, E. reflexivity. }
  destruct (swaps d).
  - assert (Hne : js_rem d 180 <> 0) by (apply Ht; reflexivity).
    split; [intros _; exact Hres|].
    split; [intros E; contradiction|].
    split; [intros E; exfalso; apply Hne, H360, E|].
    intros Hsq. split; split; intros E; try assumption; try contradiction.
    rewrite Hres in E. injection E as E.
    exfalso. apply Hsq. apply swapped_eq_iff. exact E.
  - assert (He : js_rem d 180 = 0) by (apply Hf; reflexivity).
    split; [intros E; contradiction|].
    split; [intros _; exact Hres|].
    split; [intros _; exact Hres|].
    intros Hsq. split; split; intros E; try assumption; try contradiction.
    rewrite Hres in E. injection E as E.
    exfalso. apply Hsq. apply swapped_eq_iff. symmetry. exact E.
Qed.

(** A 100 x 200 source rotated by 90 degrees gives 200 x 100. *)
Lemma getNewDimensions_100x200_by_90 :
  exists r w',
    getNewDimensions None (world_of 90 100 200) = (inr r, w') /\
    vectors w' !! r = Some (Vector2.new 200 100).
Proof.
  destruct (@getNewDimensions_swaps_iff_not_multiple_of_180
              90 None (world_of 90 100 200) (Vector2.new 100 200)
              eq_refl eq_refl)
    as (r & w' & Hrun & Hswap & _).
  exists r, w'. split; [exact Hrun|].
  apply Hswap. vm_compute. discriminate.
Defined.

(** C3.  Degrees that are not a multiple of 90 make construction throw an
    error whose message mentions "multiple of 90", and whatever would
    follow construction (rendering included) is not run and finds the world
    as it was; a multiple of 90 is accepted and stored. *)
Theorem RotationOperation_accepts_only_multiples_of_90 (d : Z) :
  (js_rem d 90 <> 0 ->
   exists m,
     RotationOperation_new (Some d) = inl (Error m) /\
     contains "multiple of 90" m = true /\
     forall (A : Type) (k : Options -> M World A) (w : World),
       bind (lift (RotationOperation_new (Some d))) k w = (inl (Error m), w)) /\
  (js_rem d 90 = 0 ->
   RotationOperation_new (Some d) = inr {| degrees := d |}).
Proof.
  split.
  - intros H. eexists. split; [apply RotationOperation_new_invalid, H|].
    split; [reflexivity|].
    intros A k w. rewrite (RotationOperation_new_invalid _ H). reflexivity.
  - apply RotationOperation_new_valid.
Qed.

(** Degrees 45 are rejected, degrees 270 accepted. *)
Lemma RotationOperation_45_rejected_270_accepted :
  (exists m,
     RotationOperation_new (Some 45) = inl (Error m) /\
     contains "multiple of 90" m = true) /\
  RotationOperation_new (Some 270) = inr {| degrees := 270 |}.
Proof.
  split.
  - destruct (proj1 (RotationOperation_accepts_only_multiples_of_90 45))
      as (m & Hnew & Hmsg & _).
    + vm_compute. discriminate.
    + exists m. split; assumption.
  - apply (proj2 (RotationOperation_accepts_only_multiples_of_90 270)).
    reflexivity.
Defined.

Lemma canvas_of_size_of c : canvas_of (size_of c) = c.
Proof. destruct c. reflexivity. Qed.

(** C4.  For validated degrees both strategies return, and both leave the
    renderer with a canvas of the same size: the size [getNewDimensions]
    gives for the canvas they started from, exchanged for 90 and 270
    degrees and unchanged for 0 and 180.  The shader's matrix and the
    context's rotation are both built from the angle of degrees mod 360. *)
Theorem render_strategies_agree_on_dimensions d w c :
  RotationOperation_new (Some d) = inr (this_options w) ->
  canvases w !! renderer_canvas w = Some c ->
  exists wg wc surface eg ec,
    _renderWebGL w = (inr tt, wg) /\
    _renderCanvas w = (inr tt, wc) /\
    canvases wg !! renderer_canvas wg = Some surface /\
    canvases wc !! renderer_canvas wc = Some surface /\
    (exists r w', getNewDimensions None w = (inr r, w') /\
                  vectors w' !! r = Some (size_of surface)) /\
    (js_rem d 180 <> 0 -> surface = {| width := height c; height := width c |}) /\
    (js_rem d 180 = 0 -> surface = c) /\
    log wg = log w ++ eg /\
    log wc = log w ++ ec /\
    In (EvRunShader (renderer_lastTexture w) (renderer_currentTexture w)
          (rotationMatrix (radians_of (js_rem d 360)))) eg /\
    In (EvContext (renderer_canvas wc) (rotate (radians_of (js_rem d 360)))) ec.
Proof.
  intros Hnew Hc.
  apply RotationOperation_new_degrees in Hnew as [Hd _].
  assert (Hlt : (renderer_canvas w < length (canvases w))%nat)
    by (eapply lookup_lt_Some; eauto).
  pose proof (_renderCanvas_run w Hc) as Hcanvas. cbv zeta in Hcanvas.
  destruct (getNewDimensions_result None w (v := size_of c)) as (r & w' & Hrun & Hres).
  { cbn. rewrite Hc. reflexivity. }
  rewrite Hd in *.
  pose proof (swaps_true d) as Ht. pose proof (swaps_false d) as Hf.
  unfold rotated in *.
  destruct (swaps d) eqn:Hsw.
  - assert (Hne : js_rem d 180 <> 0) by (apply Ht; reflexivity).
    pose proof (_renderWebGL_run_swap w Hc) as Hgl. cbv zeta in Hgl.
    rewrite Hd in Hgl. specialize (Hgl Hsw).
    eexists _, _, (canvas_of (swapped (size_of c))), _, _.
    split; [exact Hgl|]. split; [exact Hcanvas|].
    split; [cbn; apply list_lookup_insert_eq; exact Hlt|].
    split; [cbn; rewrite (lookup_app_r (canvases w)), Nat.sub_diag by lia; reflexivity|].
    split; [exists r, w'; split; [exact Hrun | exact Hres]|].
    split; [intros _; reflexivity|].
    split; [intros E; contradiction|].
    split; [reflexivity|]. split; [reflexivity|].
    split; [apply in_or_app; right; left; reflexivity|].
    cbn. tauto.
  - assert (He : js_rem d 180 = 0) by (apply Hf; reflexivity).
    pose proof (_renderWebGL_run_keep w Hc) as Hgl. cbv zeta in Hgl.
    rewrite Hd in Hgl. specialize (Hgl Hsw).
    eexists _, _, c, _, _.
    split; [exact Hgl|]. split; [exact Hcanvas|].
    split; [cbn; exact Hc|].
    split; [cbn; rewrite (lookup_app_r (canvases w)), Nat.sub_diag by lia;
            cbn; rewrite canvas_of_size_of; reflexivity|].
    split; [exists r, w'; split; [exact Hrun | exact Hres]|].
    split; [intros E; contradiction|].
    split; [intros _; reflexivity|].
    split; [reflexivity|]. split; [reflexivity|].
    split; [left; reflexivity|].
    cbn. tauto.
Qed.

(** Both strategies turn a 100 x 200 canvas by 90 degrees into 200 x 100. *)
Lemma render_strategies_agree_100x200_by_90 :
  exists wg wc,
    _renderWebGL (world_of 90 100 200) = (inr tt, wg) /\
    _renderCanvas (world_of 90 100 200) = (inr tt, wc) /\
    canvases wg !! renderer_canvas wg = Some {| width := 200; height := 100 |} /\
    canvases wc !! renderer_canvas wc = Some {| width := 200; height := 100 |}.
Proof.
  destruct (@render_strategies_agree_on_dimensions
              90 (world_of 90 100 200) {| width := 100; height := 200 |}
              eq_refl eq_refl)
    as (wg & wc & surface & eg & ec & Hg & Hc & Hsg & Hsc & _ & Hswap & _).
  exists wg, wc.
  rewrite Hsg, Hsc, Hswap by (vm_compute; discriminate).
  repeat split; assumption.
Defined.

Lemma in_other_textures lastTexture textures t :
  In t (other_textures lastTexture textures) <-> In t textures /\ t <> lastTexture.
Proof.
  unfold other_textures. rewrite filter_In, negb_true_iff, Nat.eqb_neq. tauto.
Qed.

Lemma in_resize_events v t e :
  In e (resize_events v t) ->
  e = EvBindTexture t \/ e = EvTexImage2D t (Vector2.x v) (Vector2.y v).
Proof. cbn. intuition auto. Qed.

(** Resizing a list of textures one after the other. *)
Lemma resize_fold_length v ts : forall s : list Texture,
  length (fold_left (fun s t => <[t := v]> s) ts s) = length s.
Proof.
  induction ts as [|t ts IH]; intros s; cbn; [reflexivity|].
  rewrite IH. apply length_insert.
Qed.

Lemma resize_fold_lookup v ts t : forall s : list Texture,
  (t < length s)%nat ->
  fold_left (fun s t => <[t := v]> s) ts s !! t =
    if in_dec Nat.eq_dec t ts then Some v else s !! t.
Proof.
  induction ts as [|u ts IH]; intros s Hlt; cbn [fold_left].
  - reflexivity.
  - rewrite IH by (rewrite length_insert; exact Hlt).
    destruct (in_dec Nat.eq_dec t ts) as [Hin|Hnin].
    + destruct (in_dec Nat.eq_dec t (u :: ts)) as [_|Hn]; [reflexivity|].
      exfalso. apply Hn. right. exact Hin.
    + destruct (in_dec Nat.eq_dec t (u :: ts)) as [[ -> | Hin ] | Hn ].
      * apply list_lookup_insert_eq. exact Hlt.
      * contradiction.
      * apply list_lookup_insert_ne. intros ->. apply Hn. left. reflexivity.
Qed.

(** X4.  After [_renderWebGL] with the branch taken, the current texture,
    every texture of the renderer and the input texture have the new
    size. *)
Lemma _renderWebGL_texture_sizes w c t old :
  canvases w !! renderer_canvas w = Some c ->
  swaps (degrees (this_options w)) = true ->
  texture_store w !! t = Some old ->
  t = renderer_currentTexture w \/ In t (renderer_textures w) \/
    t = renderer_lastTexture w ->
  texture_store (snd (_renderWebGL w)) !! t =
    Some (texture_of (swapped (size_of c))).
Proof.
  intros Hc Hsw Hold Ht.
  assert (Hlt : (t < length (texture_store w))%nat)
    by (eapply lookup_lt_Some; eauto).
  pose proof (_renderWebGL_run_swap w Hc Hsw) as Hrun. cbv zeta in Hrun.
  rewrite Hrun. cbn [snd texture_store].
  destruct (Nat.eq_dec t (renderer_lastTexture w)) as [ -> | Hne ].
  - apply list_lookup_insert_eq.
    rewrite resize_fold_length, length_insert. exact Hlt.
  - rewrite list_lookup_insert_ne by congruence.
    rewrite resize_fold_lookup by (rewrite length_insert; exact Hlt).
    destruct (in_dec Nat.eq_dec t _) as [_|Hnin]; [reflexivity|].
    destruct Ht as [ -> | [ Hin | -> ] ].
    + apply list_lookup_insert_eq. exact Hlt.
    + exfalso. apply Hnin, in_other_textures. auto.
    + contradiction.
Qed.

(** C5.  In [_renderWebGL], with a current texture that is not the input
    texture: everything logged before the shader's draw leaves the input
    texture alone, and the only thing after the draw is the resize of the
    input texture.  For 90 and 270 degrees the part before the draw is: the
    canvas resized, the current texture resized, then every texture of the
    renderer but the input texture resized, in order; for 0 and 180 degrees
    nothing precedes the draw. *)
Theorem input_texture_is_resized_last w c :
  canvases w !! renderer_canvas w = Some c ->
  renderer_currentTexture w <> renderer_lastTexture w ->
  let d := degrees (this_options w) in
  let canvas := renderer_canvas w in
  let lastTexture := renderer_lastTexture w in
  let currentTexture := renderer_currentTexture w in
  let others := other_textures lastTexture (renderer_textures w) in
  exists w' before nd,
    _renderWebGL w = (inr tt, w') /\
    canvases w' !! canvas = Some (canvas_of nd) /\
    log w' =
      log w ++ before ++
      [ EvRunShader lastTexture currentTexture
          (rotationMatrix (radians_of (js_rem d 360))) ] ++
      [ EvBindTexture lastTexture;
        EvTexImage2D lastTexture (Vector2.x nd) (Vector2.y nd) ] /\
    (forall sw sh, ~ In (EvTexImage2D lastTexture sw sh) before) /\
    (forall t, In t others <-> In t (renderer_textures w) /\ t <> lastTexture) /\
    (js_rem d 180 <> 0 ->
       nd = swapped (size_of c) /\
       before =
         [ EvSetWidth canvas (Vector2.x nd);
           EvSetHeight canvas (Vector2.y nd);
           EvBindTexture currentTexture;
           EvTexImage2D currentTexture (Vector2.x nd) (Vector2.y nd) ] ++
         flat_map
           (fun t => [ EvBindTexture t;
                       EvTexImage2D t (Vector2.x nd) (Vector2.y nd) ])
           others) /\
    (js_rem d 180 = 0 -> nd = size_of c /\ before = []).
Proof.
  intros Hc Hcur d canvas lastTexture currentTexture others.
  assert (Hlt : (renderer_canvas w < length (canvases w))%nat)
    by (eapply lookup_lt_Some; eauto).
  pose proof (swaps_true d) as Ht. pose proof (swaps_false d) as Hf.
  destruct (swaps d) eqn:Hsw.
  - assert (Hne : js_rem d 180 <> 0) by (apply Ht; reflexivity).
    pose proof (_renderWebGL_run_swap w Hc Hsw) as Hgl. cbv zeta in Hgl.
    eexists _, _, (swapped (size_of c)).
    split; [exact Hgl|].
    split; [cbn; apply list_lookup_insert_eq; exact Hlt|].
    split; [reflexivity|].
    split.
    { intros sw sh Hin.
      apply in_app_or in Hin as [Hin|Hin].
      - cbn in Hin. destruct Hin as [E|[E|[]]]; discriminate E.
      - apply in_app_or in Hin as [Hin|Hin].
        + apply in_resize_events in Hin as [E|E]; [discriminate E|].
          injection E as E _ _. apply Hcur. symmetry. exact E.
        + apply in_flat_map in Hin as (t & Ht' & Hin).
          apply in_other_textures in Ht' as [_ Hneq].
          apply in_resize_events in Hin as [E|E]; [discriminate E|].
          injection E as E _ _. apply Hneq. symmetry. exact E. }
    split; [intros t; apply in_other_textures|].
    split; [intros _; split; reflexivity|].
    intros E. contradiction.
  - assert (He : js_rem d 180 = 0) by (apply Hf; reflexivity).
    pose proof (_renderWebGL_run_keep w Hc Hsw) as Hgl. cbv zeta in Hgl.
    eexists _, [], (size_of c).
    split; [exact Hgl|].
    split; [cbn; rewrite canvas_of_size_of; exact Hc|].
    split; [reflexivity|].
    split; [intros sw sh []|].
    split; [intros t; apply in_other_textures|].
    split; [intros E; contradiction|].
    intros _. split; reflexivity.
Qed.

(** The order of resizes on a renderer with two buffer textures and a
    separate input texture, for a rotation by 90 degrees. *)
Lemma input_texture_is_resized_last_by_90 :
  exists w' matrix,
    _renderWebGL (world_of 90 100 200) = (inr tt, w') /\
    log w' =
      [ EvSetWidth 0%nat 200; EvSetHeight 0%nat 100;
        EvBindTexture 0%nat; EvTexImage2D 0%nat 200 100;
        EvBindTexture 0%nat; EvTexImage2D 0%nat 200 100;
        EvBindTexture 1%nat; EvTexImage2D 1%nat 200 100;
        EvRunShader 2%nat 0%nat matrix;
        EvBindTexture 2%nat; EvTexImage2D 2%nat 200 100 ].
Proof.
  destruct (@input_texture_is_resized_last
              (world_of 90 100 200) {| width := 100; height := 200 |} eq_refl)
    as (w' & before & nd & Hrun & _ & Hlog & _ & _ & Hswap & _).
  { cbn. discriminate. }
  destruct Hswap as [-> ->]; [vm_compute; discriminate|].
  eexists w', _. split; [exact Hrun|]. exact Hlog.
Defined.

(** C6.  [_renderCanvas] returns, and what it did is, in this order: a new
    canvas is created and given the dimensions [getNewDimensions] returns;
    on its context: save, translate to the centre of the new canvas, rotate
    by the angle of degrees mod 360; the renderer's canvas is cloned and the
    clone drawn at (-oldWidth/2, -oldHeight/2); restore; the new canvas is
    made the renderer's canvas.  The old canvas is left as it was. *)
Theorem _renderCanvas_steps w c :
  canvases w !! renderer_canvas w = Some c ->
  let d := degrees (this_options w) in
  let newCanvas := length (canvases w) in
  let tempCanvas := S newCanvas in
  exists w' r w1 nd,
    getNewDimensions None w = (inr r, w1) /\
    vectors w1 !! r = Some nd /\
    _renderCanvas w = (inr tt, w') /\
    log w' = log w ++
      [ EvCreateCanvas newCanvas;
        EvSetWidth newCanvas (Vector2.x nd);
        EvSetHeight newCanvas (Vector2.y nd);
        EvContext newCanvas save;
        EvContext newCanvas
          (translate (IZR (Vector2.x nd) / 2) (IZR (Vector2.y nd) / 2));
        EvContext newCanvas (rotate (IZR (js_rem d 360) * (PI / 180)));
        EvCloneCanvas (renderer_canvas w) tempCanvas;
        EvContext newCanvas
          (drawImage tempCanvas (- IZR (width c) / 2) (- IZR (height c) / 2));
        EvContext newCanvas restore;
        EvSetCanvas newCanvas ] /\
    renderer_canvas w' = newCanvas /\
    canvases w' !! newCanvas =
      Some {| width := Vector2.x nd; height := Vector2.y nd |} /\
    canvases w' !! tempCanvas = Some c /\
    canvases w' !! renderer_canvas w = Some c.
Proof.
  intros Hc d newCanvas tempCanvas.
  pose proof (_renderCanvas_run w Hc) as Hrun. cbv zeta in Hrun.
  destruct (getNewDimensions_result None w (v := size_of c)) as (r & w1 & Hnd & Hres).
  { cbn. rewrite Hc. reflexivity. }
  eexists _, r, w1, _.
  split; [exact Hnd|]. split; [exact Hres|]. split; [exact Hrun|].
  split; [reflexivity|]. split; [reflexivity|].
  cbn [canvases].
  split; [rewrite (lookup_app_r (canvases w)), Nat.sub_diag by lia; reflexivity|].
  split.
  - subst tempCanvas newCanvas.
    rewrite (lookup_app_r (canvases w)) by lia.
    replace (S (length (canvases w)) - length (canvases w))%nat with 1%nat by lia.
    reflexivity.
  - rewrite lookup_app_l by (eapply lookup_lt_Some; eauto). exact Hc.
Qed.

(** The steps on a 100 x 200 canvas for a rotation by 90 degrees. *)
Lemma _renderCanvas_steps_100x200_by_90 :
  exists w',
    _renderCanvas (world_of 90 100 200) = (inr tt, w') /\
    renderer_canvas w' = 1%nat /\
    canvases w' !! 1%nat = Some {| width := 200; height := 100 |} /\
    canvases w' !! 0%nat = Some {| width := 100; height := 200 |}.
Proof.
  destruct (@_renderCanvas_steps
              (world_of 90 100 200) {| width := 100; height := 200 |} eq_refl)
    as (w' & r & w1 & nd & Hnd & Hres & Hrun & _ & Hrc & Hnew & _ & Hold).
  cbv zeta in *.
  exists w'. split; [exact Hrun|]. split; [exact Hrc|].
  split; [|exact Hold].
  assert (E : nd = Vector2.new 200 100).
  { vm_compute in Hnd. injection Hnd as <- <-. vm_compute in Hres.
    injection Hres as <-. reflexivity. }
  rewrite E in Hnew. exact Hnew.
Defined.

(** ** What the render methods leave alone *)

Section Frame.
Context {S B : Type} (f : S -> B).

Lemma preserves_ret {A} (a : A) : preserves f (ret a).
Proof. intros s. reflexivity. Qed.

Lemma preserves_throw {A} (e : exn) : preserves f (@throw S A e).
Proof. intros s. reflexivity. Qed.

Lemma preserves_gets {A} (g : S -> A) : preserves f (gets g).
Proof. intros s. reflexivity. Qed.

Lemma preserves_modify (g : S -> S) :
  (forall s, f (g s) = f s) -> preserves f (modify g).
Proof. intros H s. apply H. Qed.

Lemma preserves_bind {A C} (m : M S A) (k : A -> M S C) :
  preserves f m -> (forall a, preserves f (k a)) -> preserves f (bind m k).
Proof.
  intros Hm Hk s. unfold bind.
  specialize (Hm s). destruct (m s) as [[e|a] s']; cbn in *.
  - exact Hm.
  - rewrite Hk. exact Hm.
Qed.

Lemma preserves_for_each {A} (body : A -> M S unit) l :
  (forall a, preserves f (body a)) -> preserves f (for_each body l).
Proof.
  intros Hb. induction l as [|a l IH]; cbn.
  - apply preserves_ret.
  - apply preserves_bind; [apply Hb | intros _; exact IH].
Qed.
End Frame.

(** Decomposes a computation into its primitives; what is left is a
    setter, which does not touch the observed field. *)
Ltac frame :=
  repeat first
    [ apply preserves_ret
    | apply preserves_throw
    | apply preserves_gets
    | apply preserves_bind; [|intros ?]
    | apply preserves_for_each; intros ?
    | apply preserves_modify; intros ?; reflexivity
    | match goal with
      | |- preserves _ (if ?b then _ else _) => destruct b
      | |- preserves _ (match ?o with _ => _ end) => destruct o
      end ].

Lemma deref_preserves {A B} (f : World -> B) (store : World -> list A) r :
  preserves f (deref store r).
Proof. unfold deref. frame. Qed.

Lemma getNewDimensions_preserves_options dimensions :
  preserves this_options (getNewDimensions dimensions).
Proof.
  unfold getNewDimensions, get_x, get_y, set_x, set_y, get_width, get_height,
    new_Vector2, deref.
  frame.
Qed.

(** C8.  Neither render strategy changes [this._options]: whatever the
    world, and whether the method returns or throws, the options after the
    call are the options before it. *)
Theorem render_preserves_options (w : World) :
  this_options (snd (_renderWebGL w)) = this_options w /\
  degrees (this_options (snd (_renderWebGL w))) = degrees (this_options w) /\
  this_options (snd (_renderCanvas w)) = this_options w /\
  degrees (this_options (snd (_renderCanvas w))) = degrees (this_options w).
Proof.
  assert (H : preserves this_options _renderWebGL /\
              preserves this_options _renderCanvas); cycle 1.
  { destruct H as [Hg Hc]. rewrite (Hg w), (Hc w). auto. }
  split.
  - unfold _renderWebGL, runShader, bindTexture, texImage2D, set_width,
      set_height, get_x, get_y, get_width, get_height, emit, deref.
    frame; apply getNewDimensions_preserves_options.
  - unfold _renderCanvas, createCanvas, cloneCanvas, setCanvas, context2d,
      set_width, set_height, get_x, get_y, get_width, get_height, emit, deref.
    frame; apply getNewDimensions_preserves_options.
Qed.

(** ** [Vector2.clamp] and its use in the crop controls *)

Section Clamp.
Import Vector2 Vector2Methods CropControls.

Lemma Qmax_left_when_above (lo t : Q) : (t < lo)%Q -> Qmax lo t = lo.
Proof.
  intros H. unfold Qmax, GenericMinMax.gmax.
  destruct (lo ?= t)%Q eqn:E; try reflexivity.
  apply Qlt_alt in E. exfalso. eapply Qlt_irrefl, Qlt_trans; eauto.
Qed.

Lemma clamp_axis_upper_only (hi value : Q) :
  (clamp_axis None (Some hi) value <= hi)%Q /\
  ((value <= hi)%Q -> (clamp_axis None (Some hi) value == value)%Q).
Proof.
  cbn. split.
  - apply Q.le_min_l.
  - intros H. apply Q.min_r. exact H.
Qed.

Lemma clamp_axis_lower_only (lo value : Q) :
  (lo <= clamp_axis (Some lo) None value)%Q /\
  ((lo <= value)%Q -> (clamp_axis (Some lo) None value == value)%Q).
Proof.
  cbn. split.
  - apply Q.le_max_l.
  - intros H. apply Q.max_r. exact H.
Qed.

Lemma clamp_axis_min_wins (lo hi value : Q) :
  (hi < lo)%Q -> clamp_axis (Some lo) (Some hi) value = lo.
Proof.
  intros H. cbn. apply Qmax_left_when_above.
  eapply Qle_lt_trans; [apply Q.le_min_l | exact H].
Qed.

Lemma clamp_axis_between (lo hi value : Q) :
  (lo <= hi)%Q ->
  (lo <= clamp_axis (Some lo) (Some hi) value <= hi)%Q.
Proof.
  intros H. cbn. split.
  - apply Q.le_max_l.
  - apply Q.max_lub; [exact H | apply Q.le_min_l].
Qed.

(** C9.  [clamp] works on each axis on its own.  With a null minimum only
    the upper side is bounded: the result is at most the maximum and a
    value below the maximum stays, however small.  With a null maximum
    only the lower side is bounded.  With both bounds and
    [min.x > max.x], the result has [x = min.x].  In [_onKnobDrag] the
    top-left knob is clamped from above only, against the end minus the
    minimum size, and the bottom-right knob from below only, against the
    start plus the minimum size. *)
Theorem clamp_null_bound_and_tie_break (minimum maximum v : Vector2 Q) :
  (* each axis on its own *)
  (x (clamp (Some minimum) (Some maximum) v)
     = clamp_axis (Some (x minimum)) (Some (x maximum)) (x v) /\
   y (clamp (Some minimum) (Some maximum) v)
     = clamp_axis (Some (y minimum)) (Some (y maximum)) (y v)) /\
  (* clamp(null, max) *)
  ((x (clamp None (Some maximum) v) <= x maximum)%Q /\
   (y (clamp None (Some maximum) v) <= y maximum)%Q /\
   ((x v <= x maximum)%Q -> (x (clamp None (Some maximum) v) == x v)%Q) /\
   ((y v <= y maximum)%Q -> (y (clamp None (Some maximum) v) == y v)%Q)) /\
  (* clamp(min, null) *)
  ((x minimum <= x (clamp (Some minimum) None v))%Q /\
   (y minimum <= y (clamp (Some minimum) None v))%Q /\
   ((x minimum <= x v)%Q -> (x (clamp (Some minimum) None v) == x v)%Q) /\
   ((y minimum <= y v)%Q -> (y (clamp (Some minimum) None v) == y v)%Q)) /\
  (* the minimum wins *)
  ((x maximum < x minimum)%Q ->
     x (clamp (Some minimum) (Some maximum) v) = x minimum) /\
  ((y maximum < y minimum)%Q ->
     y (clamp (Some minimum) (Some maximum) v) = y minimum) /\
  (* the two call sites *)
  (forall mouseDiff canvasSize startBeforeDrag endBeforeDrag minimumSize,
     let dragged :=
       _onKnobDrag_corner "top-left" mouseDiff canvasSize
         startBeforeDrag endBeforeDrag minimumSize in
     absoluteStart dragged =
       clamp None
         (Some (subtract (multiply endBeforeDrag canvasSize) minimumSize))
         (add (multiply startBeforeDrag canvasSize) mouseDiff) /\
     (x (absoluteStart dragged)
        <= x (absoluteEnd dragged) - x minimumSize)%Q /\
     (y (absoluteStart dragged)
        <= y (absoluteEnd dragged) - y minimumSize)%Q) /\
  (forall mouseDiff canvasSize startBeforeDrag endBeforeDrag minimumSize,
     let dragged :=
       _onKnobDrag_corner "bottom-right" mouseDiff canvasSize
         startBeforeDrag endBeforeDrag minimumSize in
     absoluteEnd dragged =
       clamp
         (Some (add (multiply startBeforeDrag canvasSize) minimumSize))
         None
         (add (multiply endBeforeDrag canvasSize) mouseDiff) /\
     (x (absoluteStart dragged) + x minimumSize
        <= x (absoluteEnd dragged))%Q /\
     (y (absoluteStart dragged) + y minimumSize
        <= y (absoluteEnd dragged))%Q).
Proof.
  split; [split; reflexivity|].
  split.
  { repeat split; cbn [clamp x y option_map];
      first [apply clamp_axis_upper_only]. }
  split.
  { repeat split; cbn [clamp x y option_map];
      first [apply clamp_axis_lower_only]. }
  split; [apply clamp_axis_min_wins|].
  split; [apply clamp_axis_min_wins|].
  split.
  - intros mouseDiff canvasSize startBeforeDrag endBeforeDrag minimumSize dragged.
    subst dragged. split; [reflexivity|].
    split; cbn; apply Q.le_min_l.
  - intros mouseDiff canvasSize startBeforeDrag endBeforeDrag minimumSize dragged.
    subst dragged. split; [reflexivity|].
    split; cbn; apply Q.le_max_l.
Qed.

(** With minimum (5, 5) and maximum (3, 9) the x of the result is 5. *)
Lemma clamp_minimum_5_over_maximum_3 :
  x (clamp (Some (new 5 5)) (Some (new 3 9)) (new 4 20))%Q = 5%Q /\
  (x (clamp None (Some (new 3 9)) (new 1 20)) == 1)%Q.
Proof.
  pose proof (@clamp_null_bound_and_tie_break (new 5 5) (new 3 9) (new 4 20))%Q
    as (_ & _ & _ & Hx & _).
  pose proof (@clamp_null_bound_and_tie_break (new 5 5) (new 3 9) (new 1 20))%Q
    as (_ & (_ & _ & Hup & _) & _).
  split.
  - apply Hx. reflexivity.
  - apply Hup. cbn. discriminate.
Defined.
End Clamp.

(** ** [ImglyKit] *)

Section Kit.
Import ImglyKit.

(** C7.  [render] calls [validateSettings] first.  When that throws,
    [render] throws the same error at once: no [RenderImage] has been
    constructed, no rendering started, and no promise exists whose
    callback could export.  When it returns, the [RenderImage] is
    constructed and its rendering started, in this order, and the export,
    with the validated settings, happens only in the callback of the
    promise. *)
Theorem render_validates_settings_first
    (validateSettings : option string -> option string -> exn + (string * string))
    (renderType imageFormat dimensions : option string) (s : State) :
  (forall e,
     validateSettings renderType imageFormat = inl e ->
     render validateSettings renderType imageFormat dimensions s = (inl e, s)) /\
  (forall renderType' imageFormat' options,
     validateSettings renderType imageFormat = inr (renderType', imageFormat') ->
     _options (this s) = Some options ->
     exists promise s',
       render validateSettings renderType imageFormat dimensions s
         = (inr promise, s') /\
       this s' = this s /\
       events s' = events s ++
         [ EvNewRenderImage (image options) (operationsStack (this s))
             dimensions (renderer options);
           EvRenderImageRender ] /\
       forall later,
         promise later =
           (inr tt,
            {| this := this later;
               events := events later ++ [EvExport renderType' imageFormat'] |})).
Proof.
  split.
  - intros e He. unfold render. rewrite He. reflexivity.
  - intros rt fmt options Hv Ho.
    unfold render. rewrite Hv. cbn [lift]. rewrite bind_ret_l.
    unfold field.
    erewrite bind_returns; cycle 1.
    { erewrite bind_returns by apply gets_run. rewrite Ho. apply ret_run. }
    erewrite bind_returns by apply gets_run.
    eexists _, _. split; [reflexivity|].
    cbn. rewrite <- app_assoc. auto.
Qed.

(** An unsupported pair is refused before anything is set in motion; a
    supported one constructs the [RenderImage], starts it and leaves the
    export to the promise. *)
Lemma render_refuses_unsupported_pair :
  let validate := spec_validateSettings [("DATA_URL", "PNG")] in
  let night := {| ui_identifier := "night" |} in
  let o := {| image := Some 7%nat; assetsUrl := None; container := None;
              ui := Some (ui_bool false); renderer := None |} in
  let s := snd (ImglyKit night (object o) {| this := blank; events := [] |}) in
  (exists e, render validate (Some "DATA_URL") (Some "GIF") None s = (inl e, s)) /\
  (exists promise s',
     render validate None None None s = (inr promise, s') /\
     events s' = [ EvNewRenderImage (Some 7%nat) (Some []) None None;
                   EvRenderImageRender ] /\
     events (snd (promise s')) =
       [ EvNewRenderImage (Some 7%nat) (Some []) None None;
         EvRenderImageRender; EvExport "DATA_URL" "PNG" ]).
Proof.
  cbv zeta.
  set (s := snd (ImglyKit _ _ _)).
  pose proof (render_validates_settings_first
                (spec_validateSettings [("DATA_URL", "PNG")])
                (Some "DATA_URL") (Some "GIF") None s) as [Hthrow _].
  pose proof (render_validates_settings_first
                (spec_validateSettings [("DATA_URL", "PNG")])
                None None None s) as [_ Hok].
  split.
  - eexists. apply Hthrow. reflexivity.
  - destruct (Hok "DATA_URL" "PNG" _ eq_refl eq_refl)
      as (promise & s' & Hrun & _ & Hev & Hthen).
    exists promise, s'. split; [exact Hrun|]. split; [exact Hev|].
    rewrite Hthen. cbn [snd events]. rewrite Hev. reflexivity.
Defined.

(** C10.  The constructor called with [undefined] throws the error
    "No options given."; called with an object whose [image] is undefined
    it throws the error "`options.image` is undefined.".  In both cases
    nothing has been assigned: the state, the fields of [this] among it,
    is the one the constructor was entered with. *)
Theorem ImglyKit_requires_options_and_image (NightUI : UI) (s : State) :
  ImglyKit NightUI undefined s = (inl (Error "No options given."), s) /\
  (forall o,
     image o = None ->
     ImglyKit NightUI (object o) s
       = (inl (Error "`options.image` is undefined."), s)).
Proof.
  split.
  - reflexivity.
  - intros o Ho. unfold ImglyKit.
    rewrite bind_ret_l, bind_ret_l, Ho. reflexivity.
Qed.

(** On a blank instance no field is assigned after the throw. *)
Lemma ImglyKit_without_image_leaves_blank :
  let night := {| ui_identifier := "night" |} in
  let o := {| image := None; assetsUrl := None; container := None;
              ui := None; renderer := None |} in
  let s := {| this := blank; events := [] |} in
  ImglyKit night (object o) s
    = (inl (Error "`options.image` is undefined."), s) /\
  this (snd (ImglyKit night (object o) s)) = blank.
Proof.
  cbv zeta.
  pose proof (proj2 (ImglyKit_requires_options_and_image
                       {| ui_identifier := "night" |}
                       {| this := blank; events := [] |})
                {| image := None; assetsUrl := None; container := None;
                   ui := None; renderer := None |} eq_refl) as H.
  split; [exact H|]. rewrite H. reflexivity.
Defined.
End Kit.

(** * Further properties of the rotation operation *)

Lemma swapped_swapped {A} (v : Vector2 A) : swapped (swapped v) = v.
Proof. destruct v. reflexivity. Qed.

Lemma rotated_rotated d v : rotated d (rotated d v) = v.
Proof. unfold rotated. destruct (swaps d); [apply swapped_swapped | reflexivity]. Qed.

Lemma with_vectors_restore D v u w :
  vectors w !! D = Some v ->
  with_vectors (fun h => <[D := v]> h) (with_vectors (fun h => <[D := u]> h) w) = w.
Proof.
  intros H. destruct w. cbn in *.
  unfold with_vectors; cbn. rewrite list_insert_insert_eq, list_insert_id by exact H.
  reflexivity.
Qed.

(** X1.  Two calls of [getNewDimensions] on the same vector object bring
    the world back to what it was: whatever the degrees, the second call
    undoes the exchange the first one made in the caller's object. *)
Theorem getNewDimensions_twice_restores w D v :
  vectors w !! D = Some v ->
  exists w1,
    getNewDimensions (Some D) w = (inr D, w1) /\
    getNewDimensions (Some D) w1 = (inr D, w).
Proof.
  intros Hv.
  assert (Hlt : (D < length (vectors w))%nat) by (eapply lookup_lt_Some; eauto).
  rewrite (getNewDimensions_run (Some D) w (v := v)) by exact Hv.
  destruct (swaps (degrees (this_options w))) eqn:Hsw.
  - eexists. split; [reflexivity|].
    rewrite (getNewDimensions_run (Some D) _ (v := swapped v))
      by (cbn; apply list_lookup_insert_eq; exact Hlt).
    cbn [this_options with_vectors]. rewrite Hsw.
    rewrite swapped_swapped, with_vectors_restore by exact Hv. reflexivity.
  - eexists. split; [reflexivity|].
    rewrite (getNewDimensions_run (Some D) w (v := v)) by exact Hv.
    rewrite Hsw. reflexivity.
Qed.

(** The vector 100 x 200 under a rotation by 90 degrees, called twice. *)
Lemma getNewDimensions_twice_restores_100x200 :
  let w := with_vectors (fun _ => [Vector2.new 100 200]) (world_of 90 300 150) in
  exists w1,
    getNewDimensions (Some 0%nat) w = (inr 0%nat, w1) /\
    getNewDimensions (Some 0%nat) w1 = (inr 0%nat, w).
Proof.
  cbv zeta.
  apply (@getNewDimensions_twice_restores
           (with_vectors (fun _ => [Vector2.new 100 200]) (world_of 90 300 150))
           0%nat (Vector2.new 100 200)).
  reflexivity.
Defined.

(** The default path on a 100 x 200 canvas. *)
Lemma getNewDimensions_default_only_allocates_100x200 :
  exists r w',
    getNewDimensions None (world_of 90 100 200) = (inr r, w') /\
    canvases w' = canvases (world_of 90 100 200) /\
    log w' = log (world_of 90 100 200).
Proof.
  destruct (@getNewDimensions_default_only_allocates
              (world_of 90 100 200) {| width := 100; height := 200 |} eq_refl)
    as (r & w' & Hrun & Hc & _ & Hl & _).
  exists r, w'. auto.
Defined.

(** X3.  Rendering twice brings the canvas size back: after two runs of
    [_renderCanvas], and after two runs of [_renderWebGL], the renderer's
    canvas has the size it started with, whatever the degrees. *)
Theorem rendering_twice_restores_canvas_size w c :
  canvases w !! renderer_canvas w = Some c ->
  (exists w1 w2,
     _renderCanvas w = (inr tt, w1) /\
     _renderCanvas w1 = (inr tt, w2) /\
     canvases w2 !! renderer_canvas w2 = Some c) /\
  (exists w1 w2,
     _renderWebGL w = (inr tt, w1) /\
     _renderWebGL w1 = (inr tt, w2) /\
     canvases w2 !! renderer_canvas w2 = Some c).
Proof.
  intros Hc.
  assert (Hlt : (renderer_canvas w < length (canvases w))%nat)
    by (eapply lookup_lt_Some; eauto).
  split.
  - pose proof (_renderCanvas_run w Hc) as H1. cbv zeta in H1.
    match type of H1 with _ = (_, ?W) => remember W as w1 eqn:E end.
    assert (Hc1 : canvases w1 !! renderer_canvas w1
                  = Some (canvas_of (rotated (degrees (this_options w)) (size_of c)))).
    { rewrite E. cbn. rewrite (lookup_app_r (canvases w)), Nat.sub_diag by lia.
      reflexivity. }
    assert (Ho : this_options w1 = this_options w) by (rewrite E; reflexivity).
    pose proof (_renderCanvas_run w1 Hc1) as H2. cbv zeta in H2.
    exists w1. eexists. split; [exact H1|]. split; [exact H2|].
    cbn [canvases renderer_canvas].
    rewrite (lookup_app_r (canvases w1)), Nat.sub_diag by lia.
    cbn. f_equal.
    replace (size_of (canvas_of (rotated (degrees (this_options w)) (size_of c))))
      with (rotated (degrees (this_options w)) (size_of c))
      by (destruct (rotated _ _); reflexivity).
    rewrite Ho, rotated_rotated. apply canvas_of_size_of.
  - destruct (swaps (degrees (this_options w))) eqn:Hsw.
    + pose proof (_renderWebGL_run_swap w Hc Hsw) as H1. cbv zeta in H1.
      match type of H1 with _ = (_, ?W) => remember W as w1 eqn:E end.
      assert (Hc1 : canvases w1 !! renderer_canvas w1
                    = Some (canvas_of (swapped (size_of c)))).
      { rewrite E. cbn. apply list_lookup_insert_eq. exact Hlt. }
      assert (Hsw1 : swaps (degrees (this_options w1)) = true)
        by (rewrite E; exact Hsw).
      assert (Hlt1 : (renderer_canvas w1 < length (canvases w1))%nat)
        by (eapply lookup_lt_Some; eauto).
      pose proof (_renderWebGL_run_swap w1 Hc1 Hsw1) as H2. cbv zeta in H2.
      exists w1. eexists. split; [exact H1|]. split; [exact H2|].
      cbn [canvases renderer_canvas].
      rewrite list_lookup_insert_eq by exact Hlt1.
      f_equal. destruct c. reflexivity.
    + pose proof (_renderWebGL_run_keep w Hc Hsw) as H1. cbv zeta in H1.
      match type of H1 with _ = (_, ?W) => remember W as w1 eqn:E end.
      assert (Hc1 : canvases w1 !! renderer_canvas w1 = Some c)
        by (rewrite E; exact Hc).
      assert (Hsw1 : swaps (degrees (this_options w1)) = false)
        by (rewrite E; exact Hsw).
      pose proof (_renderWebGL_run_keep w1 Hc1 Hsw1) as H2. cbv zeta in H2.
      exists w1. eexists. split; [exact H1|]. split; [exact H2|]. exact Hc1.
Qed.

(** A 100 x 200 canvas rotated twice by 90 degrees on the 2D canvas. *)
Lemma rendering_twice_restores_100x200 :
  exists w1 w2,
    _renderCanvas (world_of 90 100 200) = (inr tt, w1) /\
    _renderCanvas w1 = (inr tt, w2) /\
    canvases w2 !! renderer_canvas w2 = Some {| width := 100; height := 200 |}.
Proof.
  exact (proj1 (@rendering_twice_restores_canvas_size
                  (world_of 90 100 200) {| width := 100; height := 200 |} eq_refl)).
Defined.

(** The texture at index 1 after a rotation by 90 degrees of a 100 x 200
    canvas. *)
Lemma _renderWebGL_texture_sizes_100x200 :
  texture_store (snd (_renderWebGL (world_of 90 100 200))) !! 1%nat =
    Some {| tex_width := 200; tex_height := 100 |}.
Proof.
  apply (@_renderWebGL_texture_sizes
           (world_of 90 100 200) {| width := 100; height := 200 |} 1%nat
           {| tex_width := 100; tex_height := 200 |}).
  - reflexivity.
  - reflexivity.
  - reflexivity.
  - right. left. cbn. auto.
Defined.

(** X5.  A rotation by a multiple of 180 degrees on the WebGL renderer
    resizes nothing: the canvas and every vector are as they were, and the
    one texture that is specified again, at the size of the canvas, is the
    input texture. *)
Theorem _renderWebGL_half_turn_respecifies_input_only w c :
  canvases w !! renderer_canvas w = Some c ->
  js_rem (degrees (this_options w)) 180 = 0 ->
  exists w',
    _renderWebGL w = (inr tt, w') /\
    canvases w' = canvases w /\
    renderer_canvas w' = renderer_canvas w /\
    vectors w' = vectors w /\
    (forall t, t <> renderer_lastTexture w ->
               texture_store w' !! t = texture_store w !! t) /\
    (forall old,
       texture_store w !! renderer_lastTexture w = Some old ->
       texture_store w' !! renderer_lastTexture w =
         Some {| tex_width := width c; tex_height := height c |}).
Proof.
  intros Hc Hd. apply swaps_false in Hd.
  pose proof (_renderWebGL_run_keep w Hc Hd) as Hrun. cbv zeta in Hrun.
  eexists. split; [exact Hrun|]. cbn.
  repeat split.
  - intros t Hne. apply list_lookup_insert_ne. congruence.
  - intros old Hold. apply list_lookup_insert_eq. eapply lookup_lt_Some; eauto.
Qed.

(** A rotation by 180 degrees of a 100 x 200 canvas. *)
Lemma _renderWebGL_half_turn_100x200 :
  exists w',
    _renderWebGL (world_of 180 100 200) = (inr tt, w') /\
    canvases w' = [ {| width := 100; height := 200 |} ].
Proof.
  destruct (@_renderWebGL_half_turn_respecifies_input_only
              (world_of 180 100 200) {| width := 100; height := 200 |}
              eq_refl eq_refl)
    as (w' & Hrun & Hc & _).
  exists w'. split; [exact Hrun | exact Hc].
Defined.

(** As [frame], for observations that see through an update of a store. *)
Ltac frame_length :=
  repeat first
    [ apply preserves_ret
    | apply preserves_throw
    | apply preserves_gets
    | apply preserves_bind; [|intros ?]
    | apply preserves_for_each; intros ?
    | apply preserves_modify; intros ?; cbn; rewrite ?length_insert; reflexivity
    | match goal with
      | |- preserves _ (if ?b then _ else _) => destruct b
      | |- preserves _ (match ?o with _ => _ end) => destruct o
      end ].

Lemma getNewDimensions_preserves_surfaces dimensions :
  preserves renderer_canvas (getNewDimensions dimensions) /\
  preserves (fun w => length (canvases w)) (getNewDimensions dimensions) /\
  preserves texture_store (getNewDimensions dimensions) /\
  preserves gl_TEXTURE_2D (getNewDimensions dimensions).
Proof.
  unfold getNewDimensions, get_x, get_y, set_x, set_y, get_width, get_height,
    new_Vector2, deref.
  repeat split; frame.
Qed.

(** X6.  Each strategy keeps to its own surfaces, whether it returns or
    throws: [_renderCanvas] leaves every texture and the GL binding alone,
    and [_renderWebGL] neither creates a canvas nor makes another canvas
    the renderer's. *)
Theorem render_strategies_keep_to_their_surfaces (w : World) :
  texture_store (snd (_renderCanvas w)) = texture_store w /\
  gl_TEXTURE_2D (snd (_renderCanvas w)) = gl_TEXTURE_2D w /\
  renderer_canvas (snd (_renderWebGL w)) = renderer_canvas w /\
  length (canvases (snd (_renderWebGL w))) = length (canvases w).
Proof.
  destruct (getNewDimensions_preserves_surfaces None) as (Hrc & Hlen & Htex & Hgl).
  assert (H1 : preserves texture_store _renderCanvas).
  { unfold _renderCanvas, createCanvas, cloneCanvas, setCanvas, context2d,
      set_width, set_height, get_x, get_y, get_width, get_height, emit, deref.
    frame; exact Htex. }
  assert (H2 : preserves gl_TEXTURE_2D _renderCanvas).
  { unfold _renderCanvas, createCanvas, cloneCanvas, setCanvas, context2d,
      set_width, set_height, get_x, get_y, get_width, get_height, emit, deref.
    frame; exact Hgl. }
  assert (H3 : preserves renderer_canvas _renderWebGL).
  { unfold _renderWebGL, runShader, bindTexture, texImage2D, set_width,
      set_height, get_x, get_y, get_width, get_height, emit, deref.
    frame; exact Hrc. }
  assert (H4 : preserves (fun w => length (canvases w)) _renderWebGL).
  { unfold _renderWebGL, runShader, bindTexture, texImage2D, set_width,
      set_height, get_x, get_y, get_width, get_height, emit, deref.
    frame_length; exact Hlen. }
  rewrite (H1 w), (H2 w), (H3 w). split; [reflexivity|].
  split; [reflexivity|]. split; [reflexivity|]. exact (H4 w).
Qed.

(** * Further properties of [ImglyKit] *)

Section KitMore.
Import ImglyKit ImglyKitPrototype.

Ltac kit_run :=
  unfold ImglyKit, _registerUIs, registerUI, _initUI, field, bind, modify,
    gets, ret, throw, with_this; cbn.

(** X7.  With an image given, construction succeeds when the [ui] option
    is left out, [true] or [false]: the options are stored with the
    defaults filled in, the default UI is registered, the operations stack
    is empty, and the UI is constructed, with the container and assets URL
    of the options, unless [ui] is [false]. *)
Theorem ImglyKit_constructs (NightUI : UI) (o : OptionsObject) (s : State) :
  image o <> None ->
  (ui o = Some (ui_bool false) ->
   ImglyKit NightUI (object o) s =
     (inr tt, {| this := initialised NightUI o s; events := events s |})) /\
  (ui o = None \/ ui o = Some (ui_bool true) ->
   ImglyKit NightUI (object o) s =
     (inr tt, {| this := initialised_with_ui NightUI o; events := events s |})).
Proof.
  intros Himg. destruct (image o) as [img|] eqn:Hi; [|contradiction].
  split.
  - intros Hui. kit_run. rewrite Hi, Hui. cbn. reflexivity.
  - intros [Hui|Hui]; kit_run; rewrite Hi, Hui; cbn;
      unfold initialised_with_ui, defaults; rewrite Hui; reflexivity.
Qed.



(** A constructor that was given only an image, and one told [ui: false]. *)
Lemma ImglyKit_constructs_with_image_only :
  let night := {| ui_identifier := "night" |} in
  let o u := {| image := Some 7%nat; assetsUrl := None; container := None;
                ui := u; renderer := None |} in
  let s := {| this := blank; events := [] |} in
  ImglyKit night (object (o None)) s =
    (inr tt, {| this := initialised_with_ui night (o None); events := [] |}) /\
  ImglyKit night (object (o (Some (ui_bool false)))) s =
    (inr tt, {| this := initialised night (o (Some (ui_bool false))) s;
                events := [] |}).
Proof.
  cbv zeta. split.
  - apply (@ImglyKit_constructs {| ui_identifier := "night" |}
             {| image := Some 7%nat; assetsUrl := None; container := None;
                ui := None; renderer := None |}
             {| this := blank; events := [] |}); [discriminate|].
    left. reflexivity.
  - apply (@ImglyKit_constructs {| ui_identifier := "night" |}
             {| image := Some 7%nat; assetsUrl := None; container := None;
                ui := Some (ui_bool false); renderer := None |}
             {| this := blank; events := [] |}); [discriminate|].
    reflexivity.
Defined.







(** A constructor that returns has stored the options with the defaults. *)
Lemma ImglyKit_returns_with_options (NightUI : UI) (o : OptionsObject)
    (s s' : State) :
  ImglyKit NightUI (object o) s = (inr tt, s') ->
  _options (this s') = Some (defaults o).
Proof.
  destruct o as [img url cont u rend].
  kit_run.
  destruct img as [img|]; cbn; [|discriminate].
  destruct u as [[[|]|name]|]; cbn;
    try (intros H; inversion H; reflexivity).
  destruct (String.eqb name ""); cbn;
    try (intros H; inversion H; reflexivity).
  destruct (String.eqb (ui_identifier NightUI) name); cbn;
    intros H; inversion H; reflexivity.
Qed.

(** X10.  On an instance whose construction returned, [getAssetPath]
    never throws and changes nothing: in a browser it is the assets URL of
    the options, "assets" when none was given, then "/" and the asset;
    elsewhere it is [path.resolve] of the same two. *)
Theorem getAssetPath_after_construction (NightUI : UI)
    (path_resolve : string -> string -> string)
    (o : OptionsObject) (s s' : State) (asset : string) :
  ImglyKit NightUI (object o) s = (inr tt, s') ->
  getAssetPath true path_resolve asset s' =
    (inr (assetsUrl_or_default o ++ "/" ++ asset)%string, s') /\
  getAssetPath false path_resolve asset s' =
    (inr (path_resolve (assetsUrl_or_default o) asset), s').
Proof.
  intros Hnew. apply ImglyKit_returns_with_options in Hnew.
  unfold getAssetPath, field, bind, gets. cbn. rewrite Hnew. cbn.
  unfold assetsUrl_or_default. destruct (assetsUrl o); split; reflexivity.
Qed.

(** The path of "logo.png" with the default assets URL, in a browser. *)
Lemma getAssetPath_default_in_browser :
  let night := {| ui_identifier := "night" |} in
  let o := {| image := Some 7%nat; assetsUrl := None; container := None;
              ui := Some (ui_bool false); renderer := None |} in
  let s' := snd (ImglyKit night (object o) {| this := blank; events := [] |}) in
  getAssetPath true (fun a b => b) "logo.png" s' = (inr "assets/logo.png", s').
Proof.
  cbv zeta.
  apply (@getAssetPath_after_construction
           {| ui_identifier := "night" |} (fun a b => b)
           {| image := Some 7%nat; assetsUrl := None; container := None;
              ui := Some (ui_bool false); renderer := None |}
           {| this := blank; events := [] |}).
  reflexivity.
Defined.

End KitMore.

(** * Further properties of the crop controls *)

Section CropMore.
Import Vector2 Vector2Methods CropControls CropHandlers.






(** Runs a handler on a control whose fields are known. *)
Ltac crop_run :=
  unfold _updateDOM, write_start_x, write_start_y, write_end_x, write_end_y,
    need, item_at, update_item, addEventListener, removeEventListener,
    bind, gets, modify, ret, throw,
    set_start, set_end, set_ratio, set_startBeforeDrag, set_endBeforeDrag,
    set_initialMousePosition, set_currentKnob, set_areas, set_ratios,
    set_listeners;
  cbn [fst snd _start _end _ratio _startBeforeDrag _endBeforeDrag
       _initialMousePosition _currentKnob _areas _ratios canvas_size listeners
       topLeft_width topCenter_width topLeft_height centerLeft_height
       x y clone multiply subtract add].

Lemma _updateDOM_run c s e a :
  _start c = Some s -> _end c = Some e -> _areas c = Some a ->
  _updateDOM c = (inr tt, set_areas (Some (styles_of (canvas_size c) s e)) c).
Proof.
  intros Hs He Ha. destruct c. cbn in Hs, He, Ha. subst.
  crop_run. reflexivity.
Qed.

Lemma _updateDOM_null c :
  _start c = None ->
  _updateDOM c = (inl (TypeError "Cannot read property of null"), c).
Proof.
  intros Hs. destruct c. cbn in Hs. subst. crop_run. reflexivity.
Qed.



Lemma _setRatio_star_run parseFloat resize c a :
  _areas c = Some a ->
  _setRatio parseFloat "*" resize c =
    (inr tt,
     set_areas
       (Some (styles_of (canvas_size c) (new (1#10) (1#10))%Q (new (9#10) (9#10))%Q))
       (set_end (Some (new (9#10) (9#10))%Q)
          (set_start (Some (new (1#10) (1#10))%Q) (set_ratio None c)))).
Proof.
  intros Ha. destruct c. cbn in Ha. subst.
  unfold _setRatio. rewrite String.eqb_refl. crop_run. reflexivity.
Qed.

Lemma _setRatio_number_null parseFloat ratio resize c :
  ratio <> "*" -> _start c = None ->
  exists m c',
    _setRatio parseFloat ratio resize c = (inl (TypeError m), c') /\
    _ratio c' = Some (parseFloat ratio) /\
    _start c' = None /\ _end c' = _end c /\ _areas c' = _areas c.
Proof.
  intros Hne Hs. apply String.eqb_neq in Hne.
  destruct c. cbn in Hs. subst.
  unfold _setRatio. rewrite Hne.
  destruct resize; crop_run;
    try match goal with
        | |- context [Qle_bool ?a ?b] => destruct (Qle_bool a b)
        end;
    crop_run; eexists _, _; (split; [reflexivity|]); cbn; auto.
Qed.

(** X15.  Choosing a ratio before there is a rectangle.  While
    [this._start] is null, [_setRatio] with a number throws a TypeError,
    with or without resizing, after it has stored the ratio; [_setRatio]
    with "*" is what creates the rectangle, from (0.1, 0.1) to (0.9, 0.9),
    and clears the ratio. *)
Theorem _setRatio_before_any_rectangle (parseFloat : string -> Q)
    (ratio : string) (resize : bool) (c : Control) :
  (ratio <> "*" -> _start c = None ->
   exists m c',
     _setRatio parseFloat ratio resize c = (inl (TypeError m), c') /\
     _ratio c' = Some (parseFloat ratio) /\
     _start c' = None /\ _end c' = _end c /\ _areas c' = _areas c) /\
  (forall a, _areas c = Some a ->
   exists c',
     _setRatio parseFloat "*" resize c = (inr tt, c') /\
     _ratio c' = None /\
     _start c' = Some (new (1#10) (1#10))%Q /\
     _end c' = Some (new (9#10) (9#10))%Q).
Proof.
  split.
  - apply _setRatio_number_null.
  - intros a Ha. rewrite (_setRatio_star_run parseFloat resize c Ha).
    eexists. split; [reflexivity|]. cbn. auto.
Qed.

(** On a control fresh from [init], the ratio "1.5" throws and "*" gives
    the default rectangle. *)
Lemma _setRatio_on_fresh_control :
  (exists m c',
     _setRatio parse_example "1.5" true (control_on (new 400 300)%Q)
       = (inl (TypeError m), c')) /\
  (exists c',
     _setRatio parse_example "*" true (control_on (new 400 300)%Q) = (inr tt, c') /\
     _start c' = Some (new (1#10) (1#10))%Q).
Proof.
  destruct (@_setRatio_before_any_rectangle parse_example "1.5" true
              (control_on (new 400 300)%Q)) as [Hnum _].
  destruct (@_setRatio_before_any_rectangle parse_example "*" true
              (control_on (new 400 300)%Q)) as [_ Hstar].
  split.
  - destruct Hnum as (m & c' & Hrun & _); [discriminate | reflexivity |].
    exists m, c'. exact Hrun.
  - destruct (Hstar _ eq_refl) as (c' & Hrun & _ & Hs & _).
    exists c'. split; assumption.
Defined.



(** Altering the items at the indices [k], ..., [k + n - 1], one after the
    other. *)
Lemma alter_range_lookup {A} (f : A -> A) n : forall k (l : list A) j,
  fold_left (fun l i => alter f i l) (seq k n) l !! j =
    if bool_decide (k <= j < k + n)%nat then f <$> l !! j else l !! j.
Proof.
  induction n as [|n IH]; intros k l j; cbn [seq fold_left].
  - rewrite bool_decide_eq_false_2 by lia. reflexivity.
  - rewrite IH.
    destruct (decide (k = j)) as [->|Hne].
    + rewrite (bool_decide_eq_false_2 (S j <= j < S j + n)%nat) by lia.
      rewrite (bool_decide_eq_true_2 (j <= j < j + S n)%nat) by lia.
      apply list_lookup_alter_eq.
    + rewrite list_lookup_alter_ne by exact Hne.
      destruct (decide (S k <= j < S k + n)%nat) as [Hin|Hout].
      * rewrite !bool_decide_eq_true_2 by lia. reflexivity.
      * rewrite !bool_decide_eq_false_2 by lia. reflexivity.
Qed.

Lemma alter_all {A} (f : A -> A) (l : list A) :
  fold_left (fun l i => alter f i l) (seq 0 (length l)) l = map f l.
Proof.
  apply list_eq. intros j. rewrite alter_range_lookup.
  change (map f l) with (f <$> l). rewrite list_lookup_fmap.
  destruct (decide (j < length l)%nat) as [Hlt|Hge].
  - rewrite bool_decide_eq_true_2 by lia. reflexivity.
  - rewrite bool_decide_eq_false_2 by lia.
    rewrite (lookup_ge_None_2 l j) by lia. reflexivity.
Qed.

Lemma set_ratios_set_ratios r1 r2 c :
  set_ratios r2 (set_ratios r1 c) = set_ratios r2 c.
Proof. reflexivity. Qed.

Lemma set_ratios_same c : set_ratios (_ratios c) c = c.
Proof. destruct c. reflexivity. Qed.

Lemma update_items_run (f : Item -> Item) l : forall c,
  for_each (fun i => update_item i f) l c =
    (inr tt, set_ratios (fold_left (fun rs i => alter f i rs) l (_ratios c)) c).
Proof.
  induction l as [|i l IH]; intros c; cbn [for_each fold_left].
  - rewrite set_ratios_same. reflexivity.
  - unfold update_item at 1. erewrite bind_returns by apply modify_run.
    rewrite IH. reflexivity.
Qed.

Lemma _unselectAllRatios_run c :
  _unselectAllRatios c =
    (inr tt, set_ratios (map (with_active false) (_ratios c)) c).
Proof.
  unfold _unselectAllRatios. erewrite bind_returns by apply gets_run.
  rewrite update_items_run, alter_all. reflexivity.
Qed.

Lemma item_at_run i it c :
  _ratios c !! i = Some it -> item_at i c = (inr it, c).
Proof.
  intros H. unfold item_at. erewrite bind_returns by apply gets_run.
  cbn beta. rewrite H. reflexivity.
Qed.

(** [_setRatio] with a number, resizing, returns once there is a
    rectangle; it touches neither the items nor the listeners. *)
Lemma _setRatio_number_returns parseFloat ratio c s e a :
  ratio <> "*" ->
  _start c = Some s -> _end c = Some e -> _areas c = Some a ->
  exists c',
    _setRatio parseFloat ratio true c = (inr tt, c') /\
    _ratio c' = Some (parseFloat ratio) /\
    _ratios c' = _ratios c /\ listeners c' = listeners c /\
    is_Some (_start c') /\ is_Some (_end c').
Proof.
  intros Hne Hs He Ha. apply String.eqb_neq in Hne.
  destruct c. cbn in Hs, He, Ha. subst.
  unfold _setRatio. rewrite Hne. crop_run.
  match goal with
  | |- context [Qle_bool ?a ?b] => destruct (Qle_bool a b)
  end; crop_run; eexists; (split; [reflexivity|]); cbn; eauto 10.
Qed.

(** X16.  A click on a ratio item leaves exactly that item active: every
    other item has lost the active class, whichever were active before.
    The ratio stored is null for "*" and the parsed number otherwise.  The
    click returns if the item is "*" or a rectangle exists. *)
Theorem _onRatioClick_selects_one (parseFloat : string -> Q) (c : Control)
    (i : nat) (it : Item) (a : Areas) :
  _ratios c !! i = Some it ->
  _areas c = Some a ->
  dataset_ratio it = "*" \/ (is_Some (_start c) /\ is_Some (_end c)) ->
  exists c',
    _onRatioClick parseFloat i c = (inr tt, c') /\
    (forall j it', _ratios c' !! j = Some it' -> active it' = bool_decide (j = i)) /\
    length (_ratios c') = length (_ratios c) /\
    (forall j, dataset_ratio <$> _ratios c' !! j = dataset_ratio <$> _ratios c !! j) /\
    _ratio c' =
      (if String.eqb (dataset_ratio it) "*" then None
       else Some (parseFloat (dataset_ratio it))).
Proof.
  intros Hi Ha Hok.
  set (rs' := alter (with_active true) i (map (with_active false) (_ratios c))).
  assert (Hat : rs' !! i = Some (with_active true (with_active false it))).
  { unfold rs'. rewrite list_lookup_alter_eq.
    change (map (with_active false) (_ratios c))
      with (with_active false <$> _ratios c).
    rewrite list_lookup_fmap, Hi. reflexivity. }
  assert (Hrun : exists c',
            _onRatioClick parseFloat i c = (inr tt, c') /\
            _ratios c' = rs' /\
            _ratio c' =
              (if String.eqb (dataset_ratio it) "*" then None
               else Some (parseFloat (dataset_ratio it)))).
  { unfold _onRatioClick.
    erewrite bind_returns by apply _unselectAllRatios_run.
    unfold _selectRatio, update_item.
    erewrite bind_returns by apply modify_run.
    erewrite bind_returns by (apply item_at_run; cbn; exact Hat).
    cbn [dataset_ratio with_active].
    destruct (String.eqb (dataset_ratio it) "*") eqn:E.
    - apply String.eqb_eq in E. rewrite E.
      erewrite _setRatio_star_run by (cbn; exact Ha).
      eexists. split; [reflexivity|]. cbn. auto.
    - apply String.eqb_neq in E.
      destruct Hok as [Hstar | [[s Hs] [e He]]]; [contradiction|].
      edestruct (@_setRatio_number_returns parseFloat (dataset_ratio it))
        as (c' & Hc' & Hr & Hrs & _); [exact E | | | | ].
      4: { eexists. split; [exact Hc'|]. split; [rewrite Hrs; reflexivity|exact Hr]. }
      all: cbn; eassumption. }
  destruct Hrun as (c' & Hc' & Hrs & Hr).
  exists c'. split; [exact Hc'|]. rewrite Hrs.
  split; [|split; [|split; [|exact Hr]]].
  - intros j it' Hj.
    destruct (decide (j = i)) as [->|Hne].
    + rewrite Hat in Hj. injection Hj as <-.
      rewrite bool_decide_eq_true_2 by reflexivity. reflexivity.
    + unfold rs' in Hj.
      rewrite list_lookup_alter_ne in Hj by congruence.
      change (map (with_active false) (_ratios c))
        with (with_active false <$> _ratios c) in Hj.
      rewrite list_lookup_fmap in Hj.
      destruct (_ratios c !! j) as [it0|]; [|discriminate].
      injection Hj as <-.
      rewrite bool_decide_eq_false_2 by exact Hne. reflexivity.
  - unfold rs'. rewrite length_alter, length_map. reflexivity.
  - intros j. unfold rs'.
    change (map (with_active false) (_ratios c))
      with (with_active false <$> _ratios c).
    destruct (decide (j = i)) as [->|Hne].
    + rewrite list_lookup_alter_eq, list_lookup_fmap.
      destruct (_ratios c !! i); reflexivity.
    + rewrite list_lookup_alter_ne by congruence.
      rewrite list_lookup_fmap. destruct (_ratios c !! j); reflexivity.
Qed.

(** The ratio 1.5 clicked when "*" was active. *)
Lemma _onRatioClick_selects_second :
  let c := set_ratios [with_active true (ratio_item "*" true); ratio_item "1.5" false]
             (set_end (Some (new (9#10) (9#10))%Q)
                (set_start (Some (new (1#10) (1#10))%Q)
                   (control_on (new 400 300)%Q))) in
  exists c',
    _onRatioClick parse_example 1%nat c = (inr tt, c') /\
    active <$> _ratios c' = [false; true] /\
    _ratio c' = Some (3#2)%Q.
Proof.
  cbv zeta.
  destruct (@_onRatioClick_selects_one parse_example
              (set_ratios [with_active true (ratio_item "*" true);
                           ratio_item "1.5" false]
                 (set_end (Some (new (9#10) (9#10))%Q)
                    (set_start (Some (new (1#10) (1#10))%Q)
                       (control_on (new 400 300)%Q))))
              1%nat (ratio_item "1.5" false)
              {| topLeft_width := None; topCenter_width := None;
                 topLeft_height := None; centerLeft_height := None |}
              eq_refl eq_refl)
    as (c' & Hrun & Hact & Hlen & _ & Hr).
  { right. split; eexists; reflexivity. }
  exists c'. split; [exact Hrun|]. split; [|exact Hr].
  destruct (_ratios c') as [|i0 [|i1 [|i2 rest]]]; try discriminate Hlen.
  cbn. rewrite (Hact 0%nat i0 eq_refl), (Hact 1%nat i1 eq_refl). reflexivity.
Defined.

(** The loop of [_handleControls] once a rectangle exists: every item gets
    its click listener, the sizes are written, nothing else changes. *)
Lemma _handleControls_rest parseFloat l : forall c s e a,
  _start c = Some s -> _end c = Some e -> _areas c = Some a ->
  (forall i, In i l -> (i < length (_ratios c))%nat) ->
  exists c',
    for_each
      (fun item =>
         it <- item_at item ;;
         s <- gets _start ;;
         e <- gets _end ;;
         (if dataset_selected it && negb (bool_decide (is_Some s))
             && negb (bool_decide (is_Some e))
          then
            _setRatio parseFloat (dataset_ratio it) false ;;
            _selectRatio parseFloat item
          else _updateDOM) ;;
         update_item item with_click)
      l c = (inr tt, c') /\
    _start c' = Some s /\ _end c' = Some e /\ _ratio c' = _ratio c /\
    is_Some (_areas c') /\ listeners c' = listeners c /\
    _ratios c' = fold_left (fun rs i => alter with_click i rs) l (_ratios c).
Proof.
  induction l as [|i l IH]; intros c s e a Hs He Ha Hin; cbn [for_each fold_left].
  - exists c. rewrite Ha. repeat split; eauto.
  - assert (Hi : (i < length (_ratios c))%nat) by (apply Hin; left; reflexivity).
    apply lookup_lt_is_Some in Hi as [it Hit].
    erewrite bind_returns; cycle 1.
    { erewrite bind_returns by (apply item_at_run; exact Hit).
      erewrite bind_returns by apply gets_run.
      erewrite bind_returns by apply gets_run.
      rewrite Hs, He.
      rewrite !(bool_decide_eq_true_2 (is_Some (Some _))) by eauto.
      cbn [negb]. rewrite andb_false_r. cbn [andb].
      erewrite bind_returns by (eapply _updateDOM_run; eassumption).
      unfold update_item. apply modify_run. }
    edestruct (IH (set_ratios (alter with_click i (_ratios c))
                     (set_areas (Some (styles_of (canvas_size c) s e)) c)) s e)
      as (c' & Hrun & Hs' & He' & Hr' & Ha' & Hl' & Hrs'); try eassumption.
    { reflexivity. }
    { intros j Hj. cbn. rewrite length_alter. apply Hin. right. exact Hj. }
    exists c'. split; [exact Hrun|]. repeat split; assumption.
Qed.

(** X17.  [_handleControls] on a control that has no rectangle yet
    ([_start] and [_end] null, as [init] leaves them).  Without items it
    does nothing.  With items it returns only when the first item is
    selected and its ratio is "*": then the rectangle is the default one,
    the ratio is null, the first item is active and every item has its
    click listener.  In every other case it throws a TypeError. *)
Theorem _handleControls_on_fresh_control (parseFloat : string -> Q)
    (items : list Item) (c : Control) (a : Areas) :
  _start c = None -> _end c = None -> _areas c = Some a ->
  match items with
  | [] => _handleControls parseFloat items c = (inr tt, set_ratios [] c)
  | first :: rest =>
      if dataset_selected first && String.eqb (dataset_ratio first) "*" then
        exists c',
          _handleControls parseFloat items c = (inr tt, c') /\
          _start c' = Some (new (1#10) (1#10))%Q /\
          _end c' = Some (new (9#10) (9#10))%Q /\
          _ratio c' = None /\
          _ratios c' = with_click (with_active true first) :: map with_click rest
      else
        exists m c',
          _handleControls parseFloat items c = (inl (TypeError m), c')
  end.
Proof.
  intros Hs He Ha. destruct items as [|first rest].
  - reflexivity.
  - unfold _handleControls.
    erewrite bind_returns by apply modify_run.
    erewrite bind_returns by apply gets_run.
    cbn [_ratios set_ratios length seq for_each].
    set (c0 := set_ratios (first :: rest) c).
    assert (Hs0 : _start c0 = None) by exact Hs.
    assert (He0 : _end c0 = None) by exact He.
    assert (Ha0 : _areas c0 = Some a) by exact Ha.
    assert (Hit : _ratios c0 !! 0%nat = Some first) by reflexivity.
    destruct (dataset_selected first) eqn:Hsel; cbn [andb].
    + destruct (String.eqb (dataset_ratio first) "*") eqn:Hstar.
      * apply String.eqb_eq in Hstar.
        erewrite bind_returns; cycle 1.
        { erewrite bind_returns by (apply item_at_run; exact Hit).
          erewrite bind_returns by apply gets_run.
          erewrite bind_returns by apply gets_run.
          rewrite Hs0, He0, Hsel, Hstar.
          rewrite !(bool_decide_eq_false_2 (is_Some None))
            by (intros [? ?]; discriminate).
          cbn [negb andb].
          erewrite bind_returns; cycle 1.
          { erewrite bind_returns by (eapply _setRatio_star_run; exact Ha0).
            unfold _selectRatio, update_item.
            erewrite bind_returns by apply modify_run.
            erewrite bind_returns by (apply item_at_run; reflexivity).
            cbn [dataset_ratio with_active]. rewrite Hstar.
            eapply _setRatio_star_run. reflexivity. }
          unfold update_item. apply modify_run. }
        edestruct (@_handleControls_rest parseFloat (seq 1 (length rest)))
          as (c' & Hrun & Hs' & He' & Hr' & _ & _ & Hrs'); cycle 4.
        { exists c'. split; [exact Hrun|].
          split; [exact Hs'|]. split; [exact He'|]. split; [exact Hr'|].
          rewrite Hrs'. cbn [_ratios set_ratios set_areas set_end set_start
                             set_ratio c0 alter list_alter].
          change (fold_left (fun rs i => alter with_click i rs)
                    (seq 1 (length rest))
                    (with_click (with_active true first) :: rest))
            with (fold_left (fun rs i => alter with_click i rs)
                    (seq 0 (length (with_active true first :: rest)))
                    (with_active true first :: rest)).
          rewrite alter_all. reflexivity. }
        { reflexivity. }
        { reflexivity. }
        { reflexivity. }
        { intros i Hi. apply in_seq in Hi. cbn. lia. }
      * apply String.eqb_neq in Hstar.
        destruct (@_setRatio_number_null parseFloat
                    (dataset_ratio first) false c0 Hstar Hs0)
          as (m & c' & Hrun & _).
        exists m, c'.
        erewrite bind_throws; [reflexivity|].
        erewrite bind_returns by (apply item_at_run; exact Hit).
        erewrite bind_returns by apply gets_run.
        erewrite bind_returns by apply gets_run.
        rewrite Hs0, He0, Hsel.
        rewrite !(bool_decide_eq_false_2 (is_Some None))
          by (intros [? ?]; discriminate).
        cbn [negb andb].
        erewrite bind_throws; [reflexivity|].
        erewrite bind_throws; [reflexivity|]. exact Hrun.
    + eexists _, _.
      erewrite bind_throws; [reflexivity|].
      erewrite bind_returns by (apply item_at_run; exact Hit).
      erewrite bind_returns by apply gets_run.
      erewrite bind_returns by apply gets_run.
      rewrite Hsel. cbn [andb].
      erewrite bind_throws; [reflexivity|].
      apply _updateDOM_null. exact Hs0.
Qed.

(** The items as the template may list them: the first one selected with
    "*", and the first one a number. *)
Lemma _handleControls_star_first_and_number_first :
  (exists c',
     _handleControls parse_example
       [ratio_item "*" true; ratio_item "1" false] (control_on (new 400 300)%Q)
       = (inr tt, c') /\
     active <$> _ratios c' = [true; false]) /\
  (exists m c',
     _handleControls parse_example
       [ratio_item "1" false; ratio_item "*" true] (control_on (new 400 300)%Q)
       = (inl (TypeError m), c')).
Proof.
  split.
  - destruct (@_handleControls_on_fresh_control parse_example
                [ratio_item "*" true; ratio_item "1" false]
                (control_on (new 400 300)%Q) _ eq_refl eq_refl eq_refl)
      as (c' & Hrun & _ & _ & _ & Hrs).
    exists c'. split; [exact Hrun|]. rewrite Hrs. reflexivity.
  - exact (@_handleControls_on_fresh_control parse_example
             [ratio_item "1" false; ratio_item "*" true]
             (control_on (new 400 300)%Q) _ eq_refl eq_refl eq_refl).
Defined.







(** ** Listeners *)

Lemma same_listener_true a b : same_listener a b = true <-> a = b.
Proof.
  destruct a as [a1 a2], b as [b1 b2]. unfold same_listener. cbn.
  rewrite andb_true_iff, !String.eqb_eq. split.
  - intros [-> ->]. reflexivity.
  - intros [= -> ->]. auto.
Qed.

Lemma in_listen l x ls : In l (listen x ls) <-> In l ls \/ l = x.
Proof.
  unfold listen. destruct (existsb (same_listener x) ls) eqn:E.
  - apply existsb_exists in E as (y & Hy & Hs).
    apply same_listener_true in Hs. subst y.
    split; [auto | intros [H| ->]; assumption].
  - rewrite in_app_iff. cbn. intuition auto.
Qed.

Lemma in_unlisten l x ls : In l (unlisten x ls) <-> In l ls /\ l <> x.
Proof.
  unfold unlisten. rewrite filter_In, negb_true_iff.
  split; intros [H1 H2]; split; auto.
  - intros ->. rewrite (proj2 (same_listener_true x x) eq_refl) in H2. discriminate.
  - destruct (same_listener x l) eqn:E; [|reflexivity].
    apply same_listener_true in E. congruence.
Qed.

Lemma listen_fresh x ls : ~ In x ls -> listen x ls = ls ++ [x].
Proof.
  intros H. unfold listen. destruct (existsb (same_listener x) ls) eqn:E;
    [|reflexivity].
  apply existsb_exists in E as (y & Hy & Hs).
  apply same_listener_true in Hs. subst y. contradiction.
Qed.

Lemma unlisten_absent x ls : ~ In x ls -> unlisten x ls = ls.
Proof.
  intros H. unfold unlisten. induction ls as [|l ls IH]; [reflexivity|].
  cbn. destruct (same_listener x l) eqn:E; cbn.
  - apply same_listener_true in E. subst l. exfalso. apply H. left. reflexivity.
  - rewrite IH; [reflexivity|]. intros Hin. apply H. right. exact Hin.
Qed.

Lemma unlisten_app x ls ls' :
  unlisten x (ls ++ ls') = unlisten x ls ++ unlisten x ls'.
Proof. unfold unlisten. apply List.filter_app. Qed.

Lemma set_listeners_same c : set_listeners (listeners c) c = c.
Proof. destruct c. reflexivity. Qed.

Lemma addEventListener_run type handler c :
  addEventListener type handler c =
    (inr tt, set_listeners (listen (type, handler) (listeners c)) c).
Proof.
  unfold addEventListener, modify, listen.
  destruct (existsb _ _); [rewrite set_listeners_same|]; reflexivity.
Qed.

Lemma removeEventListener_run type handler c :
  removeEventListener type handler c =
    (inr tt, set_listeners (unlisten (type, handler) (listeners c)) c).
Proof. reflexivity. Qed.

Lemma need_run {A} (f : Control -> option A) a c :
  f c = Some a -> need f c = (inr a, c).
Proof.
  intros H. unfold need. erewrite bind_returns by apply gets_run.
  cbn beta. rewrite H. reflexivity.
Qed.

Lemma clone_same (v : Vector2 Q) : clone v = v.
Proof. destruct v. reflexivity. Qed.

(** What four registrations followed by the four removals leave. *)
Lemma press_release_members h1 h2 h3 h4 ls :
  let pressed := listen h4 (listen h3 (listen h2 (listen h1 ls))) in
  let released := unlisten h4 (unlisten h3 (unlisten h2 (unlisten h1 pressed))) in
  (forall l, In l pressed <-> In l ls \/ In l [h1; h2; h3; h4]) /\
  (forall l, In l released <-> In l ls /\ ~ In l [h1; h2; h3; h4]).
Proof.
  cbv zeta. split; intros l.
  - rewrite !in_listen. cbn. intuition auto.
  - rewrite !in_unlisten, !in_listen. cbn. intuition congruence.
Qed.

Ltac not_registered ls H :=
  rewrite ?in_app_iff; cbn;
  let F := fresh in
  intros F; decompose [or] F; try discriminate; try contradiction;
  match goal with
  | Hin : In _ ls |- _ => revert Hin; apply H; cbn; auto 6
  end.

Ltac fresh_listeners ls H :=
  rewrite (@listen_fresh _ ls) by not_registered ls H;
  rewrite (@listen_fresh _ (ls ++ _)) by not_registered ls H;
  rewrite (@listen_fresh _ ((ls ++ _) ++ _)) by not_registered ls H;
  rewrite (@listen_fresh _ (((ls ++ _) ++ _) ++ _)) by not_registered ls H.

Ltac removed_listeners ls H :=
  rewrite !unlisten_app;
  rewrite !(@unlisten_absent _ ls) by (apply H; cbn; auto 6);
  match goal with
  | |- ?l ++ ?K = ?l =>
      assert (EK : K = []) by reflexivity; rewrite EK, app_nil_r
  end.

(** Brings a control reached through setters back to a record. *)
Ltac control_simpl :=
  unfold set_start, set_end, set_ratio, set_startBeforeDrag, set_endBeforeDrag,
    set_initialMousePosition, set_currentKnob, set_areas, set_ratios,
    set_listeners;
  cbn [_start _end _ratio _startBeforeDrag _endBeforeDrag
       _initialMousePosition _currentKnob _areas _ratios canvas_size listeners].

(** X19.  Pressing and releasing a knob.  The press remembers the knob,
    the mouse position and the rectangle, and puts its four listeners on
    the document, none of them twice; the release forgets the knob and
    takes exactly those four off again, leaving every other listener where
    it was, and the rectangle untouched. *)
Theorem knob_press_and_release
    (position : Vector2 Q) (knob : string) (c : Control) (s e : Vector2 Q) :
  _start c = Some s -> _end c = Some e ->
  exists c1 c2,
    _onKnobDown position knob c = (inr tt, c1) /\
    _onKnobUp c1 = (inr tt, c2) /\
    _currentKnob c1 = Some knob /\
    _initialMousePosition c1 = Some position /\
    _startBeforeDrag c1 = Some s /\ _endBeforeDrag c1 = Some e /\
    _currentKnob c2 = None /\
    _start c2 = Some s /\ _end c2 = Some e /\
    (forall l, In l (listeners c1) <-> In l (listeners c) \/ In l knob_handlers) /\
    (forall l, In l (listeners c2) <-> In l (listeners c) /\ ~ In l knob_handlers) /\
    ((forall l, In l knob_handlers -> ~ In l (listeners c)) ->
     listeners c1 = listeners c ++ knob_handlers /\ listeners c2 = listeners c).
Proof.
  intros Hs He.
  destruct c as [s1 e1 r0 sb eb im ck ar rs cs ls].
  cbn in Hs, He. subst.
  pose proof (press_release_members
                ("mousemove", "_onKnobDrag") ("touchmove", "_onKnobDrag")
                ("mouseup", "_onKnobUp") ("touchend", "_onKnobUp") ls)
    as [Hp Hr]. cbv zeta in Hp, Hr.
  eexists _, _. split.
  { unfold _onKnobDown.
    erewrite bind_returns by apply modify_run. control_simpl.
    erewrite bind_returns by apply modify_run. control_simpl.
    erewrite bind_returns by (apply need_run; reflexivity).
    erewrite bind_returns by apply modify_run. control_simpl.
    erewrite bind_returns by (apply need_run; reflexivity).
    erewrite bind_returns by apply modify_run. control_simpl.
    erewrite bind_returns by apply addEventListener_run. control_simpl.
    erewrite bind_returns by apply addEventListener_run. control_simpl.
    erewrite bind_returns by apply addEventListener_run. control_simpl.
    rewrite addEventListener_run. control_simpl. reflexivity. }
  split.
  { unfold _onKnobUp.
    erewrite bind_returns by apply modify_run. control_simpl.
    erewrite bind_returns by apply removeEventListener_run. control_simpl.
    erewrite bind_returns by apply removeEventListener_run. control_simpl.
    erewrite bind_returns by apply removeEventListener_run. control_simpl.
    rewrite removeEventListener_run. control_simpl. reflexivity. }
  cbn [_start _end _currentKnob _initialMousePosition _startBeforeDrag
       _endBeforeDrag listeners].
  rewrite !clone_same.
  do 7 (split; [reflexivity|]).
  split; [exact Hp|]. split; [exact Hr|].
  intros Hfresh.
  assert (E : listen ("touchend", "_onKnobUp")
                (listen ("mouseup", "_onKnobUp")
                   (listen ("touchmove", "_onKnobDrag")
                      (listen ("mousemove", "_onKnobDrag") ls)))
              = ls ++ knob_handlers).
  { fresh_listeners ls Hfresh. rewrite <- !app_assoc. reflexivity. }
  rewrite E. split; [reflexivity|].
  unfold knob_handlers. removed_listeners ls Hfresh. reflexivity.
Qed.

(** Pressing and releasing the top-left knob of the default rectangle. *)
Lemma knob_press_and_release_top_left :
  let c := set_end (Some (new (9#10) (9#10))%Q)
             (set_start (Some (new (1#10) (1#10))%Q) (control_on (new 400 300)%Q)) in
  exists c1 c2,
    _onKnobDown (new 10 10)%Q "top-left" c = (inr tt, c1) /\
    _onKnobUp c1 = (inr tt, c2) /\
    listeners c1 = knob_handlers /\ listeners c2 = [].
Proof.
  cbv zeta.
  destruct (@knob_press_and_release (new 10 10)%Q "top-left"
              (set_end (Some (new (9#10) (9#10))%Q)
                 (set_start (Some (new (1#10) (1#10))%Q)
                    (control_on (new 400 300)%Q)))
              (new (1#10) (1#10))%Q (new (9#10) (9#10))%Q eq_refl eq_refl)
    as (c1 & c2 & H1 & H2 & _ & _ & _ & _ & _ & _ & _ & _ & _ & Hl).
  exists c1, c2. split; [exact H1|]. split; [exact H2|].
  apply Hl. intros l _ [].
Defined.

(** X20.  Pressing and releasing the centre: the press remembers the
    mouse position and the rectangle and registers its four listeners, none
    of them twice; the release removes exactly those four and leaves the
    rectangle and every other listener alone. *)
Theorem center_press_and_release
    (position : Vector2 Q) (c : Control) (s e : Vector2 Q) :
  _start c = Some s -> _end c = Some e ->
  exists c1 c2,
    _onCenterDown position c = (inr tt, c1) /\
    _onCenterUp c1 = (inr tt, c2) /\
    _initialMousePosition c1 = Some position /\
    _startBeforeDrag c1 = Some s /\ _endBeforeDrag c1 = Some e /\
    _start c2 = Some s /\ _end c2 = Some e /\
    (forall l, In l (listeners c1) <-> In l (listeners c) \/ In l center_handlers) /\
    (forall l, In l (listeners c2) <-> In l (listeners c) /\ ~ In l center_handlers) /\
    ((forall l, In l center_handlers -> ~ In l (listeners c)) ->
     listeners c1 = listeners c ++ center_handlers /\ listeners c2 = listeners c).
Proof.
  intros Hs He.
  destruct c as [s1 e1 r0 sb eb im ck ar rs cs ls].
  cbn in Hs, He. subst.
  pose proof (press_release_members
                ("mousemove", "_onCenterDrag") ("touchmove", "_onCenterDrag")
                ("mouseup", "_onCenterUp") ("touchend", "_onCenterUp") ls)
    as [Hp Hr]. cbv zeta in Hp, Hr.
  eexists _, _. split.
  { unfold _onCenterDown.
    erewrite bind_returns by apply modify_run. control_simpl.
    erewrite bind_returns by (apply need_run; reflexivity).
    erewrite bind_returns by apply modify_run. control_simpl.
    erewrite bind_returns by (apply need_run; reflexivity).
    erewrite bind_returns by apply modify_run. control_simpl.
    erewrite bind_returns by apply addEventListener_run. control_simpl.
    erewrite bind_returns by apply addEventListener_run. control_simpl.
    erewrite bind_returns by apply addEventListener_run. control_simpl.
    rewrite addEventListener_run. control_simpl. reflexivity. }
  split.
  { unfold _onCenterUp.
    erewrite bind_returns by apply removeEventListener_run. control_simpl.
    erewrite bind_returns by apply removeEventListener_run. control_simpl.
    erewrite bind_returns by apply removeEventListener_run. control_simpl.
    rewrite removeEventListener_run. control_simpl. reflexivity. }
  cbn [_start _end _currentKnob _initialMousePosition _startBeforeDrag
       _endBeforeDrag listeners].
  rewrite !clone_same.
  do 5 (split; [reflexivity|]).
  split; [exact Hp|]. split; [exact Hr|].
  intros Hfresh.
  assert (E : listen ("touchend", "_onCenterUp")
                (listen ("mouseup", "_onCenterUp")
                   (listen ("touchmove", "_onCenterDrag")
                      (listen ("mousemove", "_onCenterDrag") ls)))
              = ls ++ center_handlers).
  { fresh_listeners ls Hfresh. rewrite <- !app_assoc. reflexivity. }
  rewrite E. split; [reflexivity|].
  unfold center_handlers. removed_listeners ls Hfresh. reflexivity.
Qed.

(** Pressing the centre while a knob's listeners are registered, and
    releasing it. *)
Lemma center_press_and_release_beside_knob :
  let c := set_listeners knob_handlers
             (set_end (Some (new (9#10) (9#10))%Q)
                (set_start (Some (new (1#10) (1#10))%Q)
                   (control_on (new 400 300)%Q))) in
  exists c1 c2,
    _onCenterDown (new 10 10)%Q c = (inr tt, c1) /\
    _onCenterUp c1 = (inr tt, c2) /\
    listeners c1 = knob_handlers ++ center_handlers /\
    listeners c2 = knob_handlers.
Proof.
  cbv zeta.
  destruct (@center_press_and_release (new 10 10)%Q
              (set_listeners knob_handlers
                 (set_end (Some (new (9#10) (9#10))%Q)
                    (set_start (Some (new (1#10) (1#10))%Q)
                       (control_on (new 400 300)%Q))))
              (new (1#10) (1#10))%Q (new (9#10) (9#10))%Q eq_refl eq_refl)
    as (c1 & c2 & H1 & H2 & _ & _ & _ & _ & _ & _ & _ & Hl).
  exists c1, c2. split; [exact H1|]. split; [exact H2|].
  apply Hl. intros l Hc Hk. cbn in Hc, Hk.
  decompose [or] Hc; decompose [or] Hk; subst; try discriminate; contradiction.
Defined.

End CropMore.
